(** * PyGEM calibration (run_calibration.py): a shallow embedding

    The calibration script estimates, per glacier, posterior samples of
    three mass-balance parameters with an MCMC sampler, optionally re-runs
    the sampler with shifted priors, and writes an ensemble per glacier.

    Numbers: the script computes with Python and numpy floats.  They are
    embedded as exact rationals ([Q]); rounding, overflow and the IEEE
    special values are outside the embedding, except numpy's [nan] for the
    mean of an empty array, which is [None], and except in the module
    [Ieee], which repeats the sampler run on a forward model whose values
    may be inf or nan. *)

From Stdlib Require Import QArith Qabs Lia Lqa.
From stdpp Require Import gmap strings list fin_maps.

Local Open Scope Q_scope.

(** ** Rational helpers *)

Definition Qlt_bool (x y : Q) : bool := negb (Qle_bool y x).

(** ** The precipitation-factor transformation *)

(** The scalar rule of [massbal] (lines 366-369):
    [if p >= 0: p = p + 1 else: p = 1 / (1 - p)]. *)
Definition prec_transform (x : Q) : Q :=
  if Qle_bool 0 x then x + 1 else 1 / (1 - x).

(** [prec_transformation] (lines 224-228) works on a numpy array with two
    masked assignments in sequence; the second mask is computed on the
    array as the first assignment left it. *)
Definition mask_nonneg_add1 (a : list Q) : list Q :=
  List.map (fun v => if Qle_bool 0 v then v + 1 else v) a.

Definition mask_neg_recip (a : list Q) : list Q :=
  List.map (fun v => if Qlt_bool v 0 then 1 / (1 - v) else v) a.

Definition prec_transformation (precfactor_raw : list Q) : list Q :=
  let precfactor := precfactor_raw in
  let precfactor := mask_nonneg_add1 precfactor in
  let precfactor := mask_neg_recip precfactor in
  precfactor.

(** ** Python exceptions and results *)

(** The exceptions the script's own statements can raise, and [Raised] for
    an exception that comes out of code the script calls (the sampler
    library, the forward model, the stratifier, the plotting back end). *)
Inductive exn : Type :=
| ZeroDivisionError
| UnboundLocalError (var : string)
| IndexError
| KeyError (key : string)
| Raised (name : string).

Definition exn_name (e : exn) : string :=
  match e with
  | ZeroDivisionError => "ZeroDivisionError"
  | UnboundLocalError _ => "UnboundLocalError"
  | IndexError => "IndexError"
  | KeyError _ => "KeyError"
  | Raised name => name
  end.

Definition result (A : Type) : Type := (exn + A)%type.

Definition rbind {A B : Type} (r : result A) (k : A -> result B) : result B :=
  match r with
  | inl e => inl e
  | inr a => k a
  end.

(** ** numpy helpers *)

Definition Qsum (a : list Q) : Q := fold_right Qplus 0 a.

(** [a.mean()]: numpy returns nan for an empty array. *)
Definition np_mean (a : list Q) : option Q :=
  match a with
  | [] => None
  | _ => Some (Qsum a / inject_Z (Z.of_nat (length a)))
  end.

(** [a[i:j]] for non-negative [i], [j]; a slice never raises. *)
Definition slice {A : Type} (a : list A) (i j : nat) : list A :=
  firstn (j - i) (skipn i a).

(** [l[i] = v] on a Python list. *)
Definition list_setitem (l : list Q) (i : nat) (v : Q) : result (list Q) :=
  if (i <? length l)%nat then inr (<[i := v]> l) else inl IndexError.

(** [l[i]] on a Python list. *)
Definition list_getitem (l : list Q) (i : nat) : result Q :=
  match l !! i with
  | Some v => inr v
  | None => inl IndexError
  end.

(** ** Module-level settings of the script (lines 36-76) *)

Definition cal_datasets : list string := ["shean"%string].
Definition mcmc_distribution_type : string := "truncnormal".
Definition mcmc_distribution_type_2 : string := "uniform".
Definition precfactor_mu : Q := 0.
Definition precfactor_sigma : Q := 1.
Definition precfactor_boundlow : Q := -2.
Definition precfactor_boundhigh : Q := 2.
Definition tempchange_mu : Q := 0.
Definition tempchange_sigma : Q := 4.
Definition tempchange_boundlow : Q := -10.
Definition tempchange_boundhigh : Q := 10.
Definition ddfsnow_mu : Q := 0.0041.
Definition ddfsnow_sigma : Q := 0.0015.
Definition ddfsnow_boundlow : Q := ddfsnow_mu - 1.96 * ddfsnow_sigma.
Definition ddfsnow_boundhigh : Q := ddfsnow_mu + 1.96 * ddfsnow_sigma.
Definition variables : list string :=
  ["massbal"; "precfactor"; "tempchange"; "ddfsnow"]%string.

(** The values the script reads from [pygem_input] (not under src/). *)
Record pygem_input : Type := {
  in_lrgcm : Q;
  in_lrglac : Q;
  in_precfactor : Q;
  in_precgrad : Q;
  in_ddfsnow : Q;
  in_ddfice : Q;
  in_tempsnow : Q;
  in_tempchange : Q;
  in_option_calibration : nat;
  in_mcmc_sample_no : nat;
  in_mcmc_burn_no : nat;
  in_mcmc_step : option string;
  in_ensemble_no : nat
}.

(** [modelparameters] as the glacier loop builds it (lines 708-710). *)
Definition modelparameters_of (input : pygem_input) : list Q :=
  [in_lrgcm input; in_lrglac input; in_precfactor input; in_precgrad input;
   in_ddfsnow input; in_ddfice input; in_tempsnow input; in_tempchange input].

(** ** Calibration data of one glacier *)

(** One row of [main_glac_rgi] with its calibration record
    ([glacier_cal_data], lines 722-734) and the inputs of the forward model
    for this glacier ([glacier_ctx]: tables, climate series, dates). *)
Record glacier (C : Type) : Type := {
  glacier_str : string;
  t1 : Q;
  t2 : Q;
  t1_idx : nat;
  t2_idx : nat;
  mb_mwe : Q;
  mb_mwe_err : Q;
  glacier_ctx : C
}.
Arguments glacier_str {C} _.
Arguments t1 {C} _.
Arguments t2 {C} _.
Arguments t1_idx {C} _.
Arguments t2_idx {C} _.
Arguments mb_mwe {C} _.
Arguments mb_mwe_err {C} _.
Arguments glacier_ctx {C} _.

(** Lines 733-734. *)
Definition observed_massbal {C : Type} (g : glacier C) : Q :=
  mb_mwe g / (t2 g - t1 g).

Definition observed_error {C : Type} (g : glacier C) : Q :=
  mb_mwe_err g / (t2 g - t1 g).

(** ** Arguments of [run_MCMC] *)

(** Mean, standard deviation and bounds of one parameter.  The mean is an
    [option]: the retry passes [trace.mean()], which is nan on an empty
    trace. *)
Record prior_spec : Type := {
  mu : option Q;
  sigma : Q;
  boundlow : Q;
  boundhigh : Q
}.

Record mcmc_args : Type := {
  distribution_type : string;
  precfactor_spec : prior_spec;
  tempchange_spec : prior_spec;
  ddfsnow_spec : prior_spec;
  iterations : nat;
  burn : nat;
  thin : nat;
  tune_interval : nat;
  step : option string;
  tune_throughout : bool;
  dbname : option string
}.

(** The defaults of the keyword arguments of [run_MCMC] (lines 230-239). *)
Definition default_precfactor_spec : prior_spec :=
  {| mu := Some precfactor_mu; sigma := precfactor_sigma;
     boundlow := precfactor_boundlow; boundhigh := precfactor_boundhigh |}.

Definition default_tempchange_spec : prior_spec :=
  {| mu := Some tempchange_mu; sigma := tempchange_sigma;
     boundlow := tempchange_boundlow; boundhigh := tempchange_boundhigh |}.

Definition default_ddfsnow_spec : prior_spec :=
  {| mu := Some ddfsnow_mu; sigma := ddfsnow_sigma;
     boundlow := ddfsnow_boundlow; boundhigh := ddfsnow_boundhigh |}.

(** ** The sampler library's objects *)

(** A stochastic variable as the script asks the library for it. *)
Inductive prior : Type :=
| TruncatedNormal (name : string) (mu : option Q) (tau : Q) (a b : option Q)
| Uniform (name : string) (lower upper : Q).

(** [pymc.Normal('obs_massbal', mu=massbal, tau=..., value=..., observed=True)]. *)
Record obs_node : Type := {
  obs_tau : Q;
  obs_value : Q
}.

(** The list given to [pymc.MCMC], with the step method chosen for it. *)
Record mcmc_model : Type := {
  m_precfactor : prior;
  m_tempchange : prior;
  m_ddfsnow : prior;
  m_massbal : option Q -> option Q -> option Q -> result Q;
  m_obs : obs_node;
  m_dbname : option string;
  m_adaptive : bool
}.

(** The keyword arguments of [model.sample] that decide the chain
    (lines 399-401). *)
Record sample_opts : Type := {
  s_iter : nat;
  s_burn : nat;
  s_thin : nat;
  s_tune_interval : nat;
  s_tune_throughout : bool
}.

(** [model.trace(name)[:]] reads a trace database. *)
Definition model_trace (db : gmap string (list Q)) (name : string)
  : result (list Q) :=
  match db !! name with
  | Some tr => inr tr
  | None => inl (KeyError name)
  end.

Record traces : Type := {
  tr_tempchange : list Q;
  tr_precfactor : list Q;
  tr_ddfsnow : list Q;
  tr_massbal : list Q
}.

(** Lines 747-750 and 784-787. *)
Definition get_variables (db : gmap string (list Q)) : result traces :=
  rbind (model_trace db "tempchange") (fun tempchange =>
  rbind (model_trace db "precfactor") (fun precfactor =>
  rbind (model_trace db "ddfsnow") (fun ddfsnow =>
  rbind (model_trace db "massbal") (fun massbal =>
  inr {| tr_tempchange := tempchange; tr_precfactor := precfactor;
         tr_ddfsnow := ddfsnow; tr_massbal := massbal |})))).

(** ** Data frames *)

Inductive cell : Type :=
| Int (z : Z)
| Float (q : Q).

(** A pandas data frame: row labels, named columns in order, and the names
    of the two axes. *)
Record DataFrame : Type := {
  df_index : list cell;
  df_index_name : option string;
  df_columns : list (string * list cell);
  df_columns_name : option string
}.

(** [len(df)] *)
Definition df_len (df : DataFrame) : nat := length (df_index df).

Definition column (cols : list (string * list cell)) (name : string)
  : option (list cell) :=
  snd <$> List.find (fun c => String.eqb (fst c) name) cols.

(** [df[name]] *)
Definition df_getitem (df : DataFrame) (name : string) : result (list cell) :=
  match column (df_columns df) name with
  | Some v => inr v
  | None => inl (KeyError name)
  end.

Fixpoint set_column (cols : list (string * list cell)) (name : string)
    (v : list cell) : list (string * list cell) :=
  match cols with
  | [] => [(name, v)]
  | (n, old) :: rest =>
      if String.eqb n name then (n, v) :: rest
      else (n, old) :: set_column rest name v
  end.

(** [df[name] = v]: replaces the column in place or appends it. *)
Definition df_setitem (df : DataFrame) (name : string) (v : list cell)
  : DataFrame :=
  {| df_index := df_index df; df_index_name := df_index_name df;
     df_columns := set_column (df_columns df) name v;
     df_columns_name := df_columns_name df |}.

Definition has_column (df : DataFrame) (name : string) : bool :=
  existsb (fun c => String.eqb (fst c) name) (df_columns df).

(** [df.drop(name, 1)]: a new frame without the column; KeyError when there
    is none. *)
Definition df_drop (df : DataFrame) (name : string) : result DataFrame :=
  if has_column df name then
    inr {| df_index := df_index df; df_index_name := df_index_name df;
           df_columns :=
             List.filter (fun c => negb (String.eqb (fst c) name)) (df_columns df);
           df_columns_name := df_columns_name df |}
  else inl (KeyError name).

(** [df.set_index(name)]: the column becomes the row labels and leaves the
    columns. *)
Definition df_set_index (df : DataFrame) (name : string) : result DataFrame :=
  rbind (df_getitem df name) (fun labels =>
  inr {| df_index := labels; df_index_name := Some name;
         df_columns :=
           List.filter (fun c => negb (String.eqb (fst c) name)) (df_columns df);
         df_columns_name := df_columns_name df |}).

(** [np.full(n, v)] and [np.arange(n)] *)
Definition np_full (n : nat) (v : Q) : list cell := repeat (Float v) n.
Definition np_arange (n : nat) : list cell :=
  List.map (fun i => Int (Z.of_nat i)) (seq 0 n).

(** [process_df] (lines 666-697). *)
Definition process_df (input : pygem_input) (df : DataFrame) : result DataFrame :=
  let df := df_setitem df "lrgcm" (np_full (df_len df) (in_lrgcm input)) in
  let df := df_setitem df "lrglac" (np_full (df_len df) (in_lrglac input)) in
  let df := df_setitem df "precgrad" (np_full (df_len df) (in_precgrad input)) in
  let df := df_setitem df "ddfice" (np_full (df_len df) (in_ddfice input)) in
  let df := df_setitem df "tempsnow" (np_full (df_len df) (in_tempsnow input)) in
  rbind (df_drop df "sorted_index") (fun df =>
  let df := {| df_index := df_index df; df_index_name := df_index_name df;
               df_columns := df_columns df;
               df_columns_name := Some "variables"%string |} in
  let df := df_setitem df "runs" (np_arange (df_len df)) in
  df_set_index df "runs").

(** ** What the script calls and does not define *)

(** [runmassbalance] is [massbalance.runmassbalance] reduced to the one
    output the calibration reads, [glac_wide_massbaltotal];
    [pymc_stochastic] is the instantiation of a prior by the library,
    [pymc_sample] is [model.sample]; [stratified_sample] is
    [es.stratified_sample]; [savefig] stands for the plotting calls of one
    figure.  [E] is the state these share behind the script's back (random
    stream, figure directory). *)
Record externals (C E : Type) : Type := {
  runmassbalance : list Q -> C -> result (list Q);
  pymc_stochastic : prior -> E -> result unit * E;
  pymc_sample :
    mcmc_model -> sample_opts -> E -> result (gmap string (list Q)) * E;
  stratified_sample : traces -> nat -> E -> result DataFrame * E;
  savefig : string -> list (list Q) -> E -> result unit * E
}.
Arguments runmassbalance {C E} _.
Arguments pymc_stochastic {C E} _.
Arguments pymc_sample {C E} _.
Arguments stratified_sample {C E} _.
Arguments savefig {C E} _.

(** ** The world the script acts on *)

Inductive event : Type :=
| RunMCMC (a : mcmc_args)
| Printed (glacier : string) (ens_mean : option Q)
| StillOutside (glacier : string).

(** [w_files] is the directory [input.mcmc_output_parallel_fp]; [w_log]
    records, in order, each call of [run_MCMC] with its arguments and each
    line printed. *)
Record world (E : Type) : Type := {
  w_ext : E;
  w_files : gmap string DataFrame;
  w_log : list event
}.
Arguments w_ext {E} _.
Arguments w_files {E} _.
Arguments w_log {E} _.

(** The sampler runs of a log, oldest first. *)
Fixpoint sampler_runs (log : list event) : list mcmc_args :=
  match log with
  | [] => []
  | RunMCMC a :: rest => a :: sampler_runs rest
  | _ :: rest => sampler_runs rest
  end.

(** Statements: a state transformer that returns a value or raises; the
    state reached when an exception is raised is kept. *)
Definition ST (S A : Type) : Type := S -> result A * S.

Definition ret {S A : Type} (a : A) : ST S A := fun s => (inr a, s).

Definition raise {S A : Type} (e : exn) : ST S A := fun s => (inl e, s).

Definition bind {S A B : Type} (m : ST S A) (k : A -> ST S B) : ST S B :=
  fun s =>
    match m s with
    | (inl e, s') => (inl e, s')
    | (inr a, s') => k a s'
    end.

Definition lift {S A : Type} (r : result A) : ST S A := fun s => (r, s).

(** The statements of the script act on a [world]. *)
Definition M (E A : Type) : Type := ST (world E) A.

(** A call into the external code: it sees and changes [w_ext] only. *)
Definition call {E A : Type} (f : E -> result A * E) : M E A :=
  fun w =>
    let (r, e') := f (w_ext w) in
    (r, {| w_ext := e'; w_files := w_files w; w_log := w_log w |}).

Definition emit {E : Type} (ev : event) : M E unit :=
  fun w =>
    (inr tt, {| w_ext := w_ext w; w_files := w_files w;
                w_log := w_log w ++ [ev] |}).

(** [ds.to_netcdf(directory + name)] *)
Definition to_netcdf {E : Type} (name : string) (df : DataFrame) : M E unit :=
  fun w =>
    (inr tt, {| w_ext := w_ext w; w_files := <[name := df]> (w_files w);
                w_log := w_log w |}).

Declare Scope stmt_scope.
Delimit Scope stmt_scope with stmt.
Notation "'do' x <- m ; k" := (bind m (fun x => k))
  (at level 10, x name, m at level 100, k at level 200) : stmt_scope.
Notation "'run' m ; k" := (bind m (fun _ => k))
  (at level 10, m at level 100, k at level 200) : stmt_scope.

Section Calibration.
Context {C E : Type}.
Variable ext : externals C E.
Variable input : pygem_input.

Local Open Scope stmt_scope.

  (** *** Prior assignment (lines 320-351) *)

  (** [(bound - mu) / sigma]; division by a zero [sigma] raises. *)
Definition zscore (bound : Q) (s : prior_spec) : result (option Q) :=
    if Qeq_bool (sigma s) 0 then inl ZeroDivisionError
    else inr ((fun m => (bound - m) / sigma s) <$> mu s).

  (** [1 / (sigma ** 2)] *)
Definition precision (s : prior_spec) : result Q :=
    if Qeq_bool (sigma s) 0 then inl ZeroDivisionError
    else inr (1 / (sigma s ^ 2)).

Definition truncnormal_prior (name : string) (s : prior_spec) : M E prior :=
    do a <- lift (zscore (boundlow s) s);
    do b <- lift (zscore (boundhigh s) s);
    do tau <- lift (precision s);
    let p := TruncatedNormal name (mu s) tau a b in
    run call (pymc_stochastic ext p);
    ret p.

Definition uniform_prior (name : string) (s : prior_spec) : M E prior :=
    let p := Uniform name (boundlow s) (boundhigh s) in
    run call (pymc_stochastic ext p);
    ret p.

  (** With any other [distribution_type] neither branch binds the three
      names, and the first read of [precfactor] (the default argument of
      [massbal], line 356) raises. *)
Definition assign_priors (a : mcmc_args) : M E (prior * prior * prior) :=
    if String.eqb (distribution_type a) "truncnormal" then
      do precfactor <- truncnormal_prior "precfactor" (precfactor_spec a);
      do tempchange <- truncnormal_prior "tempchange" (tempchange_spec a);
      do ddfsnow <- truncnormal_prior "ddfsnow" (ddfsnow_spec a);
      ret (precfactor, tempchange, ddfsnow)
    else if String.eqb (distribution_type a) "uniform" then
      do precfactor <- uniform_prior "precfactor" (precfactor_spec a);
      do tempchange <- uniform_prior "tempchange" (tempchange_spec a);
      do ddfsnow <- uniform_prior "ddfsnow" (ddfsnow_spec a);
      ret (precfactor, tempchange, ddfsnow)
    else raise (UnboundLocalError "precfactor").

  (** *** The deterministic [massbal] (lines 355-381) *)

Definition substitute (l : list Q) (i : nat) (v : option Q) : result (list Q) :=
    match v with
    | Some x => list_setitem l i x
    | None => inr l
    end.

Definition massbal (modelparameters : list Q) (g : glacier C)
      (precfactor ddfsnow tempchange : option Q) : result Q :=
    let modelparameters_copy := modelparameters in
    rbind (substitute modelparameters_copy 2 precfactor) (fun modelparameters_copy =>
    rbind (substitute modelparameters_copy 4 ddfsnow) (fun modelparameters_copy =>
    rbind (substitute modelparameters_copy 7 tempchange) (fun modelparameters_copy =>
    rbind (list_getitem modelparameters_copy 2) (fun p =>
    rbind (if Qle_bool 0 p
           then list_setitem modelparameters_copy 2 (p + 1)
           else list_setitem modelparameters_copy 2 (1 / (1 - p)))
      (fun modelparameters_copy =>
    rbind (runmassbalance ext modelparameters_copy (glacier_ctx g))
      (fun glac_wide_massbaltotal =>
    inr (Qsum (slice glac_wide_massbaltotal (t1_idx g) (t2_idx g))
         / (t2 g - t1 g)))))))).

  (** *** [run_MCMC] (lines 230-405) *)

Definition sample_opts_of (a : mcmc_args) : sample_opts :=
    {| s_iter := iterations a; s_burn := burn a; s_thin := thin a;
       s_tune_interval := tune_interval a;
       s_tune_throughout := tune_throughout a |}.

Definition is_am (step : option string) : bool :=
    match step with
    | Some s => String.eqb s "am"
    | None => false
    end.

(** Lines 355-391: the deterministic, the observed node and the model. *)
Definition mcmc_model_of (g : glacier C) (a : mcmc_args)
    (priors : prior * prior * prior) : mcmc_model :=
  let '(precfactor, tempchange, ddfsnow) := priors in
  let obs_massbal :=
    {| obs_tau := 1 / (observed_error g ^ 2);
       obs_value := observed_massbal g |} in
  {| m_precfactor := precfactor; m_tempchange := tempchange;
     m_ddfsnow := ddfsnow;
     m_massbal := massbal (modelparameters_of input) g;
     m_obs := obs_massbal; m_dbname := dbname a;
     m_adaptive := is_am (step a) |}.

Definition run_MCMC (g : glacier C) (a : mcmc_args)
  : M E (gmap string (list Q)) :=
  run emit (RunMCMC a);
  do priors <- assign_priors a;
  let model := mcmc_model_of g a priors in
  call (pymc_sample ext model (sample_opts_of a)).

  (** *** [plot_mc_results] (lines 408-663) *)

  (** The chains figure and the pairwise-scatter figure; both show the
      precipitation factor after [prec_transformation] and the other traces
      as they are. *)
Definition plot_mc_results (g : glacier C) (distribution_type : string)
      (tr : traces) : M E unit :=
    let precfactor_transformed := prec_transformation (tr_precfactor tr) in
    let shown :=
      [tr_massbal tr; precfactor_transformed; tr_tempchange tr; tr_ddfsnow tr] in
    run call (savefig ext
           (glacier_str g +:+ "_" +:+ distribution_type +:+ "_chains.png") shown);
    call (savefig ext
           (glacier_str g +:+ "_" +:+ distribution_type +:+ "_pairwisescatter.png")
           shown).

  (** *** One pass of the glacier loop (lines 702-839) *)

  (** Lines 742-743. *)
Definition first_run_args : mcmc_args :=
    {| distribution_type := mcmc_distribution_type;
       precfactor_spec := default_precfactor_spec;
       tempchange_spec := default_tempchange_spec;
       ddfsnow_spec := default_ddfsnow_spec;
       iterations := in_mcmc_sample_no input;
       burn := in_mcmc_burn_no input;
       thin := 1;
       tune_interval := 1000;
       step := in_mcmc_step input;
       tune_throughout := true;
       dbname := None |}.

  (** [massbal.mean() - observed_massbal] *)
Definition mean_difference (g : glacier C) (massbal : list Q) : option Q :=
    (fun m => m - observed_massbal g) <$> np_mean massbal.

  (** [abs(massbal.mean() - observed_massbal) > 0.1]; a comparison with nan
      is false. *)
Definition outside_tolerance (g : glacier C) (massbal : list Q) : bool :=
    match mean_difference g massbal with
    | Some d => Qlt_bool 0.1 (Qabs d)
    | None => false
    end.

  (** [(massbal.mean() - observed_massbal) > 0] *)
Definition too_positive (g : glacier C) (massbal : list Q) : bool :=
    match mean_difference g massbal with
    | Some d => Qlt_bool 0 d
    | None => false
    end.

  (** Lines 758-782: the arguments of the second call of [run_MCMC]. *)
Definition shifted_args (g : glacier C) (tr : traces) : mcmc_args :=
    let distribution_type := mcmc_distribution_type_2 in
    let precfactor_mu_shifted := np_mean (tr_precfactor tr) in
    let tempchange_mu_shifted := np_mean (tr_tempchange tr) in
    let '(precfactor_boundlow_shifted, precfactor_boundhigh_shifted,
          tempchange_boundlow_shifted, tempchange_boundhigh_shifted) :=
      if too_positive g (tr_massbal tr)
      then (precfactor_boundlow, 0, 0, tempchange_boundhigh)
      else (0, precfactor_boundhigh, tempchange_boundlow, 0) in
    {| distribution_type := distribution_type;
       precfactor_spec :=
         {| mu := precfactor_mu_shifted; sigma := precfactor_sigma;
            boundlow := precfactor_boundlow_shifted;
            boundhigh := precfactor_boundhigh_shifted |};
       tempchange_spec :=
         {| mu := tempchange_mu_shifted; sigma := tempchange_sigma;
            boundlow := tempchange_boundlow_shifted;
            boundhigh := tempchange_boundhigh_shifted |};
       ddfsnow_spec := default_ddfsnow_spec;
       iterations := in_mcmc_sample_no input;
       burn := in_mcmc_burn_no input;
       thin := 1;
       tune_interval := 1000;
       step := in_mcmc_step input;
       tune_throughout := true;
       dbname := None |}.

  (** Lines 739-753: fit the model, read the four traces, plot them. *)
Definition fit_first (g : glacier C) : M E traces :=
    let distribution_type := mcmc_distribution_type in
    do model <- run_MCMC g first_run_args;
    do tr <- lift (get_variables model);
    run plot_mc_results g distribution_type tr;
    ret tr.

  (** Lines 755-796: adjust the priors and fit again, if necessary. *)
Definition adjust_priors (g : glacier C) (tr : traces) : M E traces :=
    if outside_tolerance g (tr_massbal tr) then
      let a := shifted_args g tr in
      do model <- run_MCMC g a;
      do tr <- lift (get_variables model);
      run plot_mc_results g (distribution_type a) tr;
      ret tr
    else ret tr.

Definition cell_value (c : cell) : Q :=
    match c with
    | Int z => inject_Z z
    | Float q => q
    end.

  (** Lines 806-839: stratify, report, reshape, write. *)
Definition export_ensemble (g : glacier C) (tr : traces) : M E unit :=
    do sampling <- call (stratified_sample ext tr (in_ensemble_no input));
    do column <- lift (df_getitem sampling "massbal");
    let mean := np_mean (List.map cell_value column) in
    run emit (Printed (glacier_str g) mean);
    run (match mean with
         | Some m =>
             if Qlt_bool 0.1 (Qabs (observed_massbal g - m))
             then emit (StillOutside (glacier_str g))
             else ret tt
         | None => ret tt
         end);
    do df <- lift (process_df input sampling);
    to_netcdf (glacier_str g +:+ ".nc") df.

Definition calibrate_glacier (g : glacier C) : M E unit :=
    do tr <- fit_first g;
    do tr <- adjust_priors g tr;
    export_ensemble g tr.

  (** *** [main] from the start of the calibration (lines 216-839) *)

  (** [for glac in range(main_glac_rgi.shape[0])]: the loop has no
      exception handler. *)
Fixpoint glacier_loop (main_glac_rgi : list (glacier C)) : M E unit :=
    match main_glac_rgi with
    | [] => ret tt
    | g :: rest => run calibrate_glacier g; glacier_loop rest
    end.

Definition main (main_glac_rgi : list (glacier C)) : M E unit :=
    if (in_option_calibration input =? 2)%nat
    then glacier_loop main_glac_rgi
    else ret tt.
End Calibration.

(** ** The posterior sampler *)

Record chain : Type := {
  c_precfactor : Q;
  c_tempchange : Q;
  c_ddfsnow : Q;
  c_massbal : Q
}.

(** The random part of one sampler: initial values, the proposal of the
    step method in use at an iteration, and the accept/reject decision
    taken from the prior densities and the Gaussian likelihood of the
    observation. *)
Record kernel (E : Type) : Type := {
  k_init : mcmc_model -> E -> (Q * Q * Q) * E;
  k_propose : mcmc_model -> sample_opts -> nat -> chain -> E -> (Q * Q * Q) * E;
  k_accept : mcmc_model -> chain -> chain -> E -> bool * E
}.
Arguments k_init {E} _.
Arguments k_propose {E} _.
Arguments k_accept {E} _.

Module Sampler.
Section Loop.
Context {E : Type}.
Variable k : kernel E.
Variable model : mcmc_model.
Variable opts : sample_opts.

    (** Steps 2 and 3: the deterministic is evaluated at the candidate. *)
Definition evaluate (cand : Q * Q * Q) : result chain :=
      let '(precfactor, tempchange, ddfsnow) := cand in
      rbind (m_massbal model (Some precfactor) (Some ddfsnow) (Some tempchange))
        (fun mb =>
           inr {| c_precfactor := precfactor; c_tempchange := tempchange;
                  c_ddfsnow := ddfsnow; c_massbal := mb |}).

    (** Steps 1 to 4 of iteration [i]. *)
Definition iteration (i : nat) (cur : chain) : ST E chain :=
      fun e =>
        let (cand, e1) := k_propose k model opts i cur e in
        match evaluate cand with
        | inl ex => (inl ex, e1)
        | inr c =>
            let (ok, e2) := k_accept k model cur c e1 in
            (inr (if ok then c else cur), e2)
        end.

    (** Step 5: sample [i] (counted from 1) is kept when it lies after the
        burn-in and is a [thin]-th one of those. *)
Definition retained (i : nat) : bool :=
      (s_burn opts <? i)%nat && ((i - s_burn opts) mod s_thin opts =? 0)%nat.

Definition tally (c : chain) (db : gmap string (list Q))
      : gmap string (list Q) :=
      <["massbal"%string := db !!! "massbal"%string ++ [c_massbal c]]>
        (<["precfactor"%string := db !!! "precfactor"%string ++ [c_precfactor c]]>
           (<["tempchange"%string := db !!! "tempchange"%string ++ [c_tempchange c]]>
              (<["ddfsnow"%string := db !!! "ddfsnow"%string ++ [c_ddfsnow c]]> db))).

Definition empty_db : gmap string (list Q) :=
      <["massbal"%string := []]>
        (<["precfactor"%string := []]>
           (<["tempchange"%string := []]> (<["ddfsnow"%string := []]> ∅))).

    (** [n] more iterations, the next one being number [i]. *)
Fixpoint iterate (n i : nat) (cur : chain) (db : gmap string (list Q))
      : ST E (gmap string (list Q)) :=
      match n with
      | O => ret db
      | S n' =>
          bind (iteration i cur) (fun c =>
            iterate n' (S i) c (if retained i then tally c db else db))
      end.

    (** Modelled from the spec: [model.sample] of the sampler library, which
        the script imports and src/ does not hold.  Section 4.2 of the
        specification, steps 1 to 5: every iteration proposes, evaluates the
        forward model at the candidate, accepts or rejects, and after the
        burn-in every [thin]-th sample is retained for each variable. *)
Definition sample : ST E (gmap string (list Q)) :=
      fun e =>
        let (start, e0) := k_init k model e in
        match evaluate start with
        | inl ex => (inl ex, e0)
        | inr c => iterate (s_iter opts) 1 c empty_db e0
        end.
End Loop.
End Sampler.

(** The externals with the sampler above in the place of [model.sample]. *)
Definition with_sampler {C E : Type} (k : kernel E) (ext : externals C E)
  : externals C E :=
  {| runmassbalance := runmassbalance ext;
     pymc_stochastic := pymc_stochastic ext;
     pymc_sample := Sampler.sample k;
     stratified_sample := stratified_sample ext;
     savefig := savefig ext |}.

(** ** Arrays and lists as shared objects *)

(** Python names refer to objects; a numpy array or a list changed through
    one name is changed for every name.  [Heap] keeps the objects in a store
    and repeats [prec_transformation] and [massbal] on it. *)
Module Heap.
Abbreviation loc := positive.
Abbreviation heap := (gmap positive (list Q)).

Definition alloc (v : list Q) (h : heap) : loc * heap :=
    let l := fresh (dom h) in (l, <[l := v]> h).

  (** [a.copy()] *)
Definition copy (a : loc) : ST heap loc :=
    fun h => let (l, h') := alloc (h !!! a) h in (inr l, h').

  (** [a[mask] = f(a[mask])], the mask and [f] being given elementwise. *)
Definition update (a : loc) (f : list Q -> list Q) : ST heap unit :=
    fun h => (inr tt, <[a := f (h !!! a)]> h).

  (** [l[i] = v] *)
Definition setitem (l : loc) (i : nat) (v : Q) : ST heap unit :=
    fun h =>
      match list_setitem (h !!! l) i v with
      | inl e => (inl e, h)
      | inr l' => (inr tt, <[l := l']> h)
      end.

  (** [l[i]] *)
Definition getitem (l : loc) (i : nat) : ST heap Q :=
    fun h => (list_getitem (h !!! l) i, h).

Local Open Scope stmt_scope.

  (** Lines 224-228. *)
Definition prec_transformation (precfactor_raw : loc) : ST heap loc :=
    do precfactor <- copy precfactor_raw;
    run update precfactor mask_nonneg_add1;
    run update precfactor mask_neg_recip;
    ret precfactor.

Definition substitute (l : loc) (i : nat) (v : option Q) : ST heap unit :=
    match v with
    | Some x => setitem l i x
    | None => ret tt
    end.

  (** Lines 355-381; the forward model reads the list it is given. *)
Definition massbal {C : Type} (runmassbalance : list Q -> C -> result (list Q))
      (modelparameters : loc) (g : glacier C)
      (precfactor ddfsnow tempchange : option Q) : ST heap Q :=
    do modelparameters_copy <- copy modelparameters;
    run substitute modelparameters_copy 2 precfactor;
    run substitute modelparameters_copy 4 ddfsnow;
    run substitute modelparameters_copy 7 tempchange;
    do p <- getitem modelparameters_copy 2;
    run (if Qle_bool 0 p
         then setitem modelparameters_copy 2 (p + 1)
         else setitem modelparameters_copy 2 (1 / (1 - p)));
    do glac_wide_massbaltotal <-
      (fun h => (runmassbalance (h !!! modelparameters_copy) (glacier_ctx g), h));
    ret (Qsum (slice glac_wide_massbaltotal (t1_idx g) (t2_idx g))
         / (t2 g - t1 g)).
End Heap.

(** ** The window mean in the words of the specification *)

(** The sum of the per-step mass balance at the indices [i], ..., [j - 1];
    a step the series does not have contributes nothing. *)
Definition window_sum (series : list Q) (i j : nat) : Q :=
  Qsum (List.map (fun k => nth k series 0) (seq i (j - i))).

(** ** A small instance to run the script on *)

(** An analytic stand-in for the external code: the forward model scales a
    fixed per-step series by the precipitation factor and takes off the
    temperature bias times the degree-day factor of snow, and refuses an
    empty context; the sampler keeps every proposal, which is the mean of
    the prior's bounds; the stratifier takes the first rows of the traces. *)
Module Demo.
Definition forward (params : list Q) (ctx : list Q) : result (list Q) :=
  match ctx with
  | [] => inl (Raised "FloatingPointError")
  | _ =>
      inr (List.map
             (fun b => nth 2 params 0 * b - nth 7 params 0 * nth 4 params 0)
             ctx)
  end.

Definition centre (p : prior) : Q :=
  match p with
  | TruncatedNormal _ m _ _ _ => default 0 m
  | Uniform _ lo hi => (lo + hi) / 2
  end.

Definition kern : kernel unit :=
  {| k_init := fun m e =>
       ((centre (m_precfactor m), centre (m_tempchange m),
         centre (m_ddfsnow m)), e);
     k_propose := fun m _ _ c e =>
       ((centre (m_precfactor m), centre (m_tempchange m),
         centre (m_ddfsnow m)), e);
     k_accept := fun _ _ _ e => (true, e) |}.

Definition stratify (tr : traces) (samples : nat) (e : unit)
  : result DataFrame * unit :=
  if (length (tr_massbal tr) <? samples)%nat
  then (inl (Raised "InsufficientSamplesError"), e)
  else
    let col (a : list Q) := List.map Float (firstn samples a) in
    (inr {| df_index := np_arange samples; df_index_name := None;
            df_columns :=
              [("tempchange"%string, col (tr_tempchange tr));
               ("precfactor"%string, col (prec_transformation (tr_precfactor tr)));
               ("ddfsnow"%string, col (tr_ddfsnow tr));
               ("massbal"%string, col (tr_massbal tr));
               ("sorted_index"%string, np_arange samples)];
            df_columns_name := None |}, e).

Definition ext : externals (list Q) unit :=
  {| runmassbalance := forward;
     pymc_stochastic := fun _ e => (inr tt, e);
     pymc_sample := Sampler.sample kern;
     stratified_sample := stratify;
     savefig := fun _ _ e => (inr tt, e) |}.

Definition input : pygem_input :=
  {| in_lrgcm := -0.0065; in_lrglac := -0.0065; in_precfactor := 1;
     in_precgrad := 0.0001; in_ddfsnow := 0.0041; in_ddfice := 0.0082;
     in_tempsnow := 1; in_tempchange := 0;
     in_option_calibration := 2; in_mcmc_sample_no := 6;
     in_mcmc_burn_no := 2; in_mcmc_step := None; in_ensemble_no := 2 |}.

Definition world0 : world unit :=
  {| w_ext := tt; w_files := ∅; w_log := [] |}.

(** A glacier whose modelled balance agrees with the observation, one
    whose modelled balance is too positive, and one without climate data. *)
Definition glacier_near : glacier (list Q) :=
  {| glacier_str := "15.00001"; t1 := 2000; t2 := 2002; t1_idx := 0;
     t2_idx := 2; mb_mwe := 1; mb_mwe_err := 0.4;
     glacier_ctx := [0.5; 0.5; 0.25] |}.

Definition glacier_far : glacier (list Q) :=
  {| glacier_str := "15.00002"; t1 := 2000; t2 := 2002; t1_idx := 0;
     t2_idx := 2; mb_mwe := -1; mb_mwe_err := 0.4;
     glacier_ctx := [0.5; 0.5; 0.25] |}.

Definition glacier_bad : glacier (list Q) :=
  {| glacier_str := "15.00003"; t1 := 2000; t2 := 2002; t1_idx := 0;
     t2_idx := 2; mb_mwe := 1; mb_mwe_err := 0.4;
     glacier_ctx := [] |}.

(** The arguments of the first fit with a zero standard deviation of the
    precipitation factor, and with the bounds of the temperature bias in
    the wrong order for a uniform prior. *)
Definition args_sigma0 : mcmc_args :=
  {| distribution_type := "truncnormal";
     precfactor_spec :=
       {| mu := Some 0; sigma := 0; boundlow := -2; boundhigh := 2 |};
     tempchange_spec := default_tempchange_spec;
     ddfsnow_spec := default_ddfsnow_spec;
     iterations := 6; burn := 2; thin := 1; tune_interval := 1000;
     step := None; tune_throughout := true; dbname := None |}.

Definition args_crossed : mcmc_args :=
  {| distribution_type := "uniform";
     precfactor_spec := default_precfactor_spec;
     tempchange_spec :=
       {| mu := Some 0; sigma := 4; boundlow := 10; boundhigh := -10 |};
     ddfsnow_spec := default_ddfsnow_spec;
     iterations := 6; burn := 2; thin := 1; tune_interval := 1000;
     step := None; tune_throughout := true; dbname := None |}.

(** A fit of seven iterations with a burn-in of two that keeps every
    second sample. *)
Definition args_thin2 : mcmc_args :=
  {| distribution_type := "truncnormal";
     precfactor_spec := default_precfactor_spec;
     tempchange_spec := default_tempchange_spec;
     ddfsnow_spec := default_ddfsnow_spec;
     iterations := 7; burn := 2; thin := 2; tune_interval := 1000;
     step := None; tune_throughout := true; dbname := None |}.

(** A frame as a stratifier returns it. *)
Definition frame0 : DataFrame :=
  {| df_index := [Int 7; Int 3; Int 5]; df_index_name := None;
     df_columns :=
       [("massbal"%string, [Float (-0.6); Float (-0.5); Float (-0.4)]);
        ("sorted_index"%string, [Int 0; Int 1; Int 2])];
     df_columns_name := None |}.

(** A store with a trace of raw precipitation factors and the parameter
    list. *)
Definition store0 : gmap positive (list Q) :=
  <[1%positive := [-1; 0; 1 # 2]]>
    (<[2%positive := modelparameters_of input]> ∅).
End Demo.

(** A statement on the store that leaves every object but [l] as it was. *)
Definition writes_only {A : Type} (l : positive)
    (m : ST (gmap positive (list Q)) A) : Prop :=
  forall (h : gmap positive (list Q)) (l0 : positive),
    l0 <> l -> (m h).2 !! l0 = h !! l0.

(** ** Counting sampler runs *)

Definition runs {E : Type} (w : world E) : list mcmc_args :=
  sampler_runs (w_log w).

(** A statement during which [run_MCMC] is not called. *)
Definition keeps_runs {E A : Type} (m : M E A) : Prop :=
  forall w : world E, runs (m w).2 = runs w.

(** ** Output files *)

(** A statement that writes no output file. *)
Definition keeps_files {E A : Type} (m : M E A) : Prop :=
  forall w : world E, w_files (m w).2 = w_files w.

(** A statement that has written no output file when it raises. *)
Definition no_file_on_error {E A : Type} (m : M E A) : Prop :=
  forall (w w' : world E) (e : exn),
    m w = (inl e, w') -> w_files w' = w_files w.

(** A statement that removes no output file. *)
Definition files_grow {E A : Type} (m : M E A) : Prop :=
  forall (w : world E) (name : string),
    is_Some (w_files w !! name) -> is_Some (w_files (m w).2 !! name).

(** ** What the sampler library is handed *)

(** The truncated normal and the uniform prior of a parameter as
    [run_MCMC] describes them to the library. *)
Definition truncnormal_of (name : string) (s : prior_spec) : prior :=
  TruncatedNormal name (mu s) (1 / (sigma s ^ 2))
    ((fun m => (boundlow s - m) / sigma s) <$> mu s)
    ((fun m => (boundhigh s - m) / sigma s) <$> mu s).

Definition uniform_of (name : string) (s : prior_spec) : prior :=
  Uniform name (boundlow s) (boundhigh s).

(** The three priors are asked of the library in turn, as they are. *)
Definition hand_over {C E : Type} (ext : externals C E) (p1 p2 p3 : prior)
  : M E (prior * prior * prior) :=
  bind (call (pymc_stochastic ext p1)) (fun _ =>
  bind (call (pymc_stochastic ext p2)) (fun _ =>
  bind (call (pymc_stochastic ext p3)) (fun _ =>
  ret (p1, p2, p3)))).

(** A statement that writes no output file and logs nothing. *)
Definition quiet {E A : Type} (m : M E A) : Prop :=
  forall w : world E,
    w_files (m w).2 = w_files w /\ w_log (m w).2 = w_log w.

(** ** Retained samples *)

(** How many of the [n] iterations numbered [i], [i + 1], ... are
    retained. *)
Fixpoint count_retained (opts : sample_opts) (n i : nat) : nat :=
  match n with
  | O => O
  | S n' =>
      ((if Sampler.retained opts i then 1 else 0)
       + count_retained opts n' (S i))%nat
  end.

(** Every variable of the database has a trace, of length [c]. *)
Definition traces_of_length (db : gmap string (list Q)) (c : nat) : Prop :=
  forall v : string,
    In v variables -> exists tr : list Q, db !! v = Some tr /\ length tr = c.

(** ** Python integers, ranges and slices *)

(** [int(np.ceil(a / b))] for a non-zero [b]. *)
Definition ceil_div (a b : Z) : Z := (- ((- a) / b))%Z.

(** The number of elements of [range(start, stop, step)]. *)
Definition range_length (start stop step : Z) : Z :=
  if (0 <? step)%Z then ceil_div (stop - start) step
  else ceil_div (start - stop) (- step).

(** [range(start, stop, step)]; a zero step raises ValueError. *)
Definition py_range (start stop step : Z) : result (list Z) :=
  if (step =? 0)%Z then inl (Raised "ValueError")
  else inr (List.map (fun i => (start + Z.of_nat i * step)%Z)
              (seq 0 (Z.to_nat (range_length start stop step)))).

(** The position a slice bound [i] stands for in a sequence of length
    [n]: a negative bound counts from the end, and every bound is brought
    into 0..n. *)
Definition slice_index (n : nat) (i : Z) : nat :=
  if (i <? 0)%Z then Z.to_nat (Z.max 0 (i + Z.of_nat n))
  else Z.to_nat (Z.min i (Z.of_nat n)).

(** [a[i:j]] and [df.iloc[i:j, :]] for integers of either sign. *)
Definition py_slice {A : Type} (a : list A) (i j : Z) : list A :=
  slice a (slice_index (length a) i) (slice_index (length a) j).

(** [l[i]] for a non-negative position. *)
Definition py_index {A : Type} (l : list A) (i : nat) : result A :=
  match l !! i with
  | Some v => inr v
  | None => inl IndexError
  end.

(** The results of [f] on the elements of [l], up to the first
    exception. *)
Fixpoint collect {A B : Type} (f : A -> result B) (l : list A)
  : result (list B) :=
  match l with
  | [] => inr []
  | x :: rest =>
      rbind (f x) (fun y => rbind (collect f rest) (fun ys => inr (y :: ys)))
  end.

(** ** The packed variables of the entry points *)

(** What the lists handed to [main] hold: integers, the glacier table
    (its rows) and the name of the climate data. *)
Inductive pyval (A : Type) : Type :=
| PyInt (z : Z)
| PyTable (rows : list A)
| PyStr (s : string).
Arguments PyInt {A} _.
Arguments PyTable {A} _.
Arguments PyStr {A} _.

Definition as_int {A : Type} (v : pyval A) : result Z :=
  match v with
  | PyInt z => inr z
  | _ => inl (Raised "TypeError")
  end.

Definition as_table {A : Type} (v : pyval A) : result (list A) :=
  match v with
  | PyTable rows => inr rows
  | _ => inl (Raised "TypeError")
  end.

Module CalibrationEntry.
(** run_calibration.py, lines 1749-1754. *)
Definition chunk_size_of (option_parallels num_simultaneous_processes : Z)
    (n_glaciers : nat) : result Z :=
  if negb (option_parallels =? 0)%Z
     && (2 * num_simultaneous_processes <=? Z.of_nat n_glaciers)%Z
  then
    if (num_simultaneous_processes =? 0)%Z then inl ZeroDivisionError
    else inr (ceil_div (Z.of_nat n_glaciers) num_simultaneous_processes)
  else inr (Z.of_nat n_glaciers).

(** Lines 1757-1761, from the counter [n] on. *)
Fixpoint pack_loop {A : Type} (main_glac_rgi_all : list A) (gcm_name : string)
    (chunk_size : Z) (n : Z) (chunks : list Z) : list (list (pyval A)) :=
  match chunks with
  | [] => []
  | chunk :: rest =>
      let n := (n + 1)%Z in
      [PyInt n; PyInt chunk; PyInt chunk_size; PyTable main_glac_rgi_all;
       PyStr gcm_name]
      :: pack_loop main_glac_rgi_all gcm_name chunk_size n rest
  end.

Definition pack {A : Type} (main_glac_rgi_all : list A) (gcm_name : string)
    (chunk_size : Z) : result (list (list (pyval A))) :=
  rbind (py_range 0 (Z.of_nat (length main_glac_rgi_all)) chunk_size)
    (fun chunks => inr (pack_loop main_glac_rgi_all gcm_name chunk_size 0 chunks)).

(** The rows one call of [main] works on (lines 121-125 and 135). *)
Definition rows_of {A : Type} (list_packed_vars : list (pyval A))
  : result (list A) :=
  rbind (py_index list_packed_vars 0) (fun count =>
  rbind (py_index list_packed_vars 1) (fun chunk =>
  rbind (py_index list_packed_vars 2) (fun chunk_size =>
  rbind (py_index list_packed_vars 3) (fun main_glac_rgi_all =>
  rbind (py_index list_packed_vars 4) (fun gcm_name =>
  rbind (as_table main_glac_rgi_all) (fun rows =>
  rbind (as_int chunk) (fun chunk =>
  rbind (as_int chunk_size) (fun chunk_size =>
  inr (py_slice rows chunk (chunk + chunk_size)))))))))).

(** The rows of the successive calls of [main]. *)
Definition batches {A : Type} (option_parallels num_simultaneous_processes : Z)
    (main_glac_rgi_all : list A) (gcm_name : string) : result (list (list A)) :=
  rbind (chunk_size_of option_parallels num_simultaneous_processes
           (length main_glac_rgi_all)) (fun chunk_size =>
  rbind (pack main_glac_rgi_all gcm_name chunk_size) (fun list_packed_vars =>
  collect rows_of list_packed_vars)).
End CalibrationEntry.

Module SimulationEntry.
(** run_simulation.py, lines 477-482. *)
Definition chunk_size_of (option_parallels num_simultaneous_processes : Z)
    (n_glaciers : nat) : result Z :=
  if negb (option_parallels =? 0)%Z then
    let num_cores := Z.min (Z.of_nat n_glaciers) num_simultaneous_processes in
    if (num_cores =? 0)%Z then inl ZeroDivisionError
    else inr (ceil_div (Z.of_nat n_glaciers) num_cores)
  else inr (Z.of_nat n_glaciers).

(** Lines 497-501, from the counter [n] on. *)
Fixpoint pack_loop {A : Type} (main_glac_rgi_all : list A) (gcm_name : string)
    (chunk_size : Z) (n : Z) (chunks : list Z) : list (list (pyval A)) :=
  match chunks with
  | [] => []
  | chunk :: rest =>
      let n := (n + 1)%Z in
      [PyInt n; PyInt chunk; PyTable main_glac_rgi_all; PyInt chunk_size;
       PyStr gcm_name]
      :: pack_loop main_glac_rgi_all gcm_name chunk_size n rest
  end.

Definition pack {A : Type} (main_glac_rgi_all : list A) (gcm_name : string)
    (chunk_size : Z) : result (list (list (pyval A))) :=
  rbind (py_range 0 (Z.of_nat (length main_glac_rgi_all)) chunk_size)
    (fun chunks => inr (pack_loop main_glac_rgi_all gcm_name chunk_size 0 chunks)).

(** The rows one call of [main] works on (lines 126-130 and 140). *)
Definition rows_of {A : Type} (list_packed_vars : list (pyval A))
  : result (list A) :=
  rbind (py_index list_packed_vars 0) (fun count =>
  rbind (py_index list_packed_vars 1) (fun chunk =>
  rbind (py_index list_packed_vars 2) (fun main_glac_rgi_all =>
  rbind (py_index list_packed_vars 3) (fun chunk_size =>
  rbind (py_index list_packed_vars 4) (fun gcm_name =>
  rbind (as_table main_glac_rgi_all) (fun rows =>
  rbind (as_int chunk) (fun chunk =>
  rbind (as_int chunk_size) (fun chunk_size =>
  inr (py_slice rows chunk (chunk + chunk_size)))))))))).

(** The rows of the successive calls of [main], for one climate data
    set. *)
Definition batches {A : Type} (option_parallels num_simultaneous_processes : Z)
    (main_glac_rgi_all : list A) (gcm_name : string) : result (list (list A)) :=
  rbind (chunk_size_of option_parallels num_simultaneous_processes
           (length main_glac_rgi_all)) (fun chunk_size =>
  rbind (pack main_glac_rgi_all gcm_name chunk_size) (fun list_packed_vars =>
  collect rows_of list_packed_vars)).
End SimulationEntry.

(** ** The glacier loop of the simulation (run_simulation.py) *)

Module Simulation.
(** [np.arange(start, stop, step)] on integers. *)
Definition np_arange (start stop step : Z) : result (list Z) :=
  if (step =? 0)%Z then inl ZeroDivisionError
  else inr (List.map (fun i => (start + Z.of_nat i * step)%Z)
              (seq 0 (Z.to_nat (ceil_div (stop - start) step)))).

(** The position an integer index stands for in a sequence of [n]
    elements; IndexError outside -n..n-1. *)
Definition position (n : nat) (i : Z) : result nat :=
  if ((0 <=? i) && (i <? Z.of_nat n))%Z then inr (Z.to_nat i)
  else if ((- Z.of_nat n <=? i) && (i <? 0))%Z
       then inr (Z.to_nat (i + Z.of_nat n))
       else inl IndexError.

(** [a[i]] on an array of integers. *)
Definition array_getitem (a : list Z) (i : Z) : result Z :=
  rbind (position (length a) i) (fun k => py_index a k).

(** The parameter set one iteration of the loop runs the mass balance
    with: the mean over all sets, or one row of [modelparams_all]. *)
Inductive parameter_choice : Type :=
| MeanOfAll
| Row (position : nat).

(** Lines 352-371: the parameter sets of the iterations, in order.
    [n_sets] is [modelparams_all.shape[0]]; [shuffle] is
    [np.random.shuffle].  With another calibration option and several sets
    neither branch binds [sim_iters]: the last case is the first glacier of
    the loop, where the name is still unbound. *)
Definition parameter_sets (shuffle : list Z -> list Z)
    (option_calibration : Z) (n_sets : nat) (input_sim_iters input_sim_burn : Z)
  : result (list parameter_choice) :=
  if (option_calibration =? 1)%Z || (n_sets =? 1)%nat then
    (* sim_iters = 1 *)
    inr [MeanOfAll]
  else if (option_calibration =? 2)%Z then
    let sim_iters := input_sim_iters in
    if (sim_iters =? 0)%Z then inl ZeroDivisionError
    else
      let mp_spacing := ((Z.of_nat n_sets - input_sim_burn) ÷ sim_iters)%Z in
      rbind (np_arange input_sim_burn (input_sim_burn + mp_spacing) 1)
        (fun mp_idx_start =>
      rbind (py_index (shuffle mp_idx_start) 0) (fun mp_idx_start =>
      rbind (np_arange mp_idx_start (Z.of_nat n_sets) mp_spacing)
        (fun mp_idx_all =>
      rbind (py_range 0 sim_iters 1) (fun iterations =>
      collect
        (fun n_iter =>
           if (sim_iters =? 1)%Z then inr MeanOfAll
           else
             rbind (array_getitem mp_idx_all n_iter) (fun mp_idx =>
             rbind (position n_sets mp_idx) (fun row => inr (Row row))))
        iterations))))
  else inl (UnboundLocalError "sim_iters").

(** [l.remove(x)]: the list without its first [x]; ValueError when there
    is none. *)
Fixpoint list_remove (x : string) (l : list string) : result (list string) :=
  match l with
  | [] => inl (Raised "ValueError")
  | y :: rest =>
      if String.eqb y x then inr rest
      else rbind (list_remove x rest) (fun rest' => inr (y :: rest'))
  end.

(** [for vn in vns: ds_vns.remove(vn)] *)
Fixpoint remove_each (vns : list string) (ds_vns : list string)
  : result (list string) :=
  match vns with
  | [] => inr ds_vns
  | vn :: rest => rbind (list_remove vn ds_vns) (remove_each rest)
  end.

(** Lines 410-414: the variables the statistics are computed for. *)
Definition statistics_variables (variables : list string)
  : result (list string) :=
  let ds_vns := variables in
  remove_each (slice ds_vns 0 8) ds_vns.

(** The rows of [a.reshape(-1, 12)], [n_rows] of them. *)
Fixpoint rows12 (n_rows : nat) (a : list Q) : list (list Q) :=
  match n_rows with
  | O => []
  | S k => firstn 12 a :: rows12 k (skipn 12 a)
  end.

(** [a.reshape(-1, 12)]: ValueError unless the size is a multiple
    of 12. *)
Definition reshape12 (a : list Q) : result (list (list Q)) :=
  if (length a mod 12 =? 0)%nat then inr (rows12 (length a / 12) a)
  else inl (Raised "ValueError").

(** Lines 384-386: the mean annual glacier-wide mass balance. *)
Definition mb_mwea (glac_wide_massbaltotal : list Q) : result (option Q) :=
  rbind (reshape12 glac_wide_massbaltotal) (fun rows =>
  let glac_wide_massbaltotal_annual := List.map Qsum rows in
  inr (np_mean glac_wide_massbaltotal_annual)).
End Simulation.

(** ** The sampler run on values that are not finite *)

(** The embedding above has no inf and no nan among the values of the
    forward model.  [Ieee] repeats the deterministic [massbal], [run_MCMC]
    and the sampler's iterations with a forward model whose output may hold
    them; the parameters the sampler proposes, the priors and the observed
    node are the finite ones above. *)
Module Ieee.
(** A numpy float; [NonFinite] stands for inf, -inf and nan alike. *)
Inductive npfloat : Type :=
| Finite (q : Q)
| NonFinite.

Definition is_finite (x : npfloat) : bool :=
  match x with
  | Finite _ => true
  | NonFinite => false
  end.

(** [x + y]: a sum that has inf or nan in it is inf or nan. *)
Definition np_add (x y : npfloat) : npfloat :=
  match x, y with
  | Finite a, Finite b => Finite (a + b)
  | _, _ => NonFinite
  end.

(** [a.sum()] *)
Definition np_sum (a : list npfloat) : npfloat :=
  fold_right np_add (Finite 0) a.

(** [x / d] on numpy floats: a zero divisor gives inf or nan with a
    warning, and no exception. *)
Definition np_div (x : npfloat) (d : Q) : npfloat :=
  match x with
  | Finite a => if Qeq_bool d 0 then NonFinite else Finite (a / d)
  | NonFinite => NonFinite
  end.

(** The list given to [pymc.MCMC]; the deterministic returns a float that
    may be non-finite. *)
Record mcmc_model : Type := {
  m_precfactor : prior;
  m_tempchange : prior;
  m_ddfsnow : prior;
  m_massbal : option Q -> option Q -> option Q -> result npfloat;
  m_obs : obs_node;
  m_dbname : option string;
  m_adaptive : bool
}.

Section Run.
Context {C E : Type}.
Variable ext : externals C E.
Variable input : pygem_input.
(** [massbalance.runmassbalance] and [model.sample] on such floats; the
    constructors of the priors are those of [ext]. *)
Variable runmassbalance : list Q -> C -> result (list npfloat).
Variable pymc_sample :
  mcmc_model -> sample_opts -> E -> result (gmap string (list npfloat)) * E.

Local Open Scope stmt_scope.

(** Lines 355-381. *)
Definition massbal (modelparameters : list Q) (g : glacier C)
    (precfactor ddfsnow tempchange : option Q) : result npfloat :=
  let modelparameters_copy := modelparameters in
  rbind (substitute modelparameters_copy 2 precfactor) (fun modelparameters_copy =>
  rbind (substitute modelparameters_copy 4 ddfsnow) (fun modelparameters_copy =>
  rbind (substitute modelparameters_copy 7 tempchange) (fun modelparameters_copy =>
  rbind (list_getitem modelparameters_copy 2) (fun p =>
  rbind (if Qle_bool 0 p
         then list_setitem modelparameters_copy 2 (p + 1)
         else list_setitem modelparameters_copy 2 (1 / (1 - p)))
    (fun modelparameters_copy =>
  rbind (runmassbalance modelparameters_copy (glacier_ctx g))
    (fun glac_wide_massbaltotal =>
  inr (np_div (np_sum (slice glac_wide_massbaltotal (t1_idx g) (t2_idx g)))
         (t2 g - t1 g)))))))).

(** Lines 355-391. *)
Definition mcmc_model_of (g : glacier C) (a : mcmc_args)
    (priors : prior * prior * prior) : mcmc_model :=
  let '(precfactor, tempchange, ddfsnow) := priors in
  let obs_massbal :=
    {| obs_tau := 1 / (observed_error g ^ 2);
       obs_value := observed_massbal g |} in
  {| m_precfactor := precfactor; m_tempchange := tempchange;
     m_ddfsnow := ddfsnow;
     m_massbal := massbal (modelparameters_of input) g;
     m_obs := obs_massbal; m_dbname := dbname a;
     m_adaptive := is_am (step a) |}.

(** [run_MCMC] (lines 230-405): between the call of [model.sample] and
    [return model] there is the closing of the database and nothing
    else. *)
Definition run_MCMC (g : glacier C) (a : mcmc_args)
  : M E (gmap string (list npfloat)) :=
  run emit (RunMCMC a);
  do priors <- assign_priors ext a;
  let model := mcmc_model_of g a priors in
  call (pymc_sample model (sample_opts_of a)).
End Run.

(** *** The iterations of the sampler *)

Record chain : Type := {
  c_precfactor : Q;
  c_tempchange : Q;
  c_ddfsnow : Q;
  c_massbal : npfloat
}.

Record kernel (E : Type) : Type := {
  k_init : mcmc_model -> E -> (Q * Q * Q) * E;
  k_propose : mcmc_model -> sample_opts -> nat -> chain -> E -> (Q * Q * Q) * E;
  k_accept : mcmc_model -> chain -> chain -> E -> bool * E
}.
Arguments k_init {E} _.
Arguments k_propose {E} _.
Arguments k_accept {E} _.

Section Loop.
Context {E : Type}.
Variable k : kernel E.
Variable model : mcmc_model.
Variable opts : sample_opts.

Definition evaluate (cand : Q * Q * Q) : result chain :=
  let '(precfactor, tempchange, ddfsnow) := cand in
  rbind (m_massbal model (Some precfactor) (Some ddfsnow) (Some tempchange))
    (fun mb =>
       inr {| c_precfactor := precfactor; c_tempchange := tempchange;
              c_ddfsnow := ddfsnow; c_massbal := mb |}).

Definition iteration (i : nat) (cur : chain) : ST E chain :=
  fun e =>
    let (cand, e1) := k_propose k model opts i cur e in
    match evaluate cand with
    | inl ex => (inl ex, e1)
    | inr c =>
        let (ok, e2) := k_accept k model cur c e1 in
        (inr (if ok then c else cur), e2)
    end.

Definition tally (c : chain) (db : gmap string (list npfloat))
  : gmap string (list npfloat) :=
  <["massbal"%string := db !!! "massbal"%string ++ [c_massbal c]]>
    (<["precfactor"%string :=
         db !!! "precfactor"%string ++ [Finite (c_precfactor c)]]>
       (<["tempchange"%string :=
            db !!! "tempchange"%string ++ [Finite (c_tempchange c)]]>
          (<["ddfsnow"%string :=
               db !!! "ddfsnow"%string ++ [Finite (c_ddfsnow c)]]> db))).

Definition empty_db : gmap string (list npfloat) :=
  <["massbal"%string := []]>
    (<["precfactor"%string := []]>
       (<["tempchange"%string := []]> (<["ddfsnow"%string := []]> ∅))).

Fixpoint iterate (n i : nat) (cur : chain) (db : gmap string (list npfloat))
  : ST E (gmap string (list npfloat)) :=
  match n with
  | O => ret db
  | S n' =>
      bind (iteration i cur) (fun c =>
        iterate n' (S i) c (if Sampler.retained opts i then tally c db else db))
  end.

(** Modelled from the spec: [model.sample] of the sampler library, which
    the script imports and src/ does not hold.  The iterations of section
    4.2, steps 1 to 5, as in [Sampler.sample], on a deterministic whose
    value may be non-finite: a library that proposes, evaluates, accepts or
    rejects and retains, and does nothing more about such a value. *)
Definition sample : ST E (gmap string (list npfloat)) :=
  fun e =>
    let (start, e0) := k_init k model e in
    match evaluate start with
    | inl ex => (inl ex, e0)
    | inr c => iterate (s_iter opts) 1 c empty_db e0
    end.
End Loop.

(** *** An instance: a forward model that returns nan at every step *)


Definition kern : kernel unit :=
  {| k_init := fun m e =>
       ((Demo.centre (m_precfactor m), Demo.centre (m_tempchange m),
         Demo.centre (m_ddfsnow m)), e);
     k_propose := fun m _ _ c e =>
       ((Demo.centre (m_precfactor m), Demo.centre (m_tempchange m),
         Demo.centre (m_ddfsnow m)), e);
     k_accept := fun _ _ _ e => (true, e) |}.
End Ieee.

(** ** Where an exception comes from *)



(** * Properties *)

(** ** Comparisons on rationals *)

Lemma Qlt_bool_iff (x y : Q) : Qlt_bool x y = true <-> x < y.
Proof.
  unfold Qlt_bool. rewrite negb_true_iff.
  split; intros H.
  - apply Qnot_le_lt. intros Hle. apply Qle_bool_iff in Hle. congruence.
  - destruct (Qle_bool y x) eqn:Hb; [| reflexivity].
    apply Qle_bool_iff in Hb. exfalso. exact (Qlt_not_le _ _ H Hb).
Qed.

Lemma Qle_bool_false_iff (x y : Q) : Qle_bool x y = false <-> y < x.
Proof.
  rewrite <- Qlt_bool_iff. unfold Qlt_bool.
  destruct (Qle_bool x y); simpl; split; congruence.
Qed.

(** ** The precipitation-factor transformation *)

Lemma prec_transform_nonneg (x : Q) : 0 <= x -> prec_transform x = x + 1.
Proof.
  intros H. unfold prec_transform.
  apply Qle_bool_iff in H. now rewrite H.
Qed.

Lemma prec_transform_neg (x : Q) : x < 0 -> prec_transform x = 1 / (1 - x).
Proof.
  intros H. unfold prec_transform.
  apply Qle_bool_false_iff in H. now rewrite H.
Qed.

Lemma one_minus_neg_gt1 (x : Q) : x < 0 -> 1 < 1 - x.
Proof. intros H. lra. Qed.

Lemma recip_pos (x : Q) : x < 0 -> 0 < 1 / (1 - x).
Proof.
  intros H. unfold Qdiv. rewrite Qmult_1_l.
  apply Qinv_lt_0_compat. lra.
Qed.

Lemma recip_lt1 (x : Q) : x < 0 -> 1 / (1 - x) < 1.
Proof.
  intros H. unfold Qdiv. rewrite Qmult_1_l.
  assert (H1 : 1 < 1 - x) by lra.
  apply (proj1 (Qinv_lt_contravar 1 (1 - x) ltac:(lra) ltac:(lra))) in H1.
  exact H1.
Qed.

Lemma prec_transform_pos (x : Q) : 0 < prec_transform x.
Proof.
  destruct (Qlt_le_dec x 0) as [H | H].
  - rewrite (prec_transform_neg x H). now apply recip_pos.
  - rewrite (prec_transform_nonneg x H). lra.
Qed.

Lemma prec_transform_increasing (x y : Q) :
  x < y -> prec_transform x < prec_transform y.
Proof.
  intros Hxy.
  destruct (Qlt_le_dec x 0) as [Hx | Hx]; destruct (Qlt_le_dec y 0) as [Hy | Hy].
  - rewrite (prec_transform_neg x Hx), (prec_transform_neg y Hy).
    unfold Qdiv. rewrite !Qmult_1_l.
    apply (proj1 (Qinv_lt_contravar (1 - y) (1 - x) ltac:(lra) ltac:(lra))).
    lra.
  - rewrite (prec_transform_neg x Hx), (prec_transform_nonneg y Hy).
    pose proof (recip_lt1 x Hx). lra.
  - lra.
  - rewrite (prec_transform_nonneg x Hx), (prec_transform_nonneg y Hy). lra.
Qed.

(** Near 0 the transform stays as close to 1 as the argument is to 0. *)
Lemma prec_transform_near_0 (y : Q) : Qabs (prec_transform y - 1) <= Qabs y.
Proof.
  destruct (Qlt_le_dec y 0) as [H | H].
  - rewrite (prec_transform_neg y H).
    pose proof (recip_pos y H) as Hp. pose proof (recip_lt1 y H) as Hl.
    rewrite (Qabs_neg y) by lra.
    rewrite (Qabs_neg (1 / (1 - y) - 1)) by lra.
    assert (Hm : (1 - y) * (1 / (1 - y)) == 1).
    { unfold Qdiv. rewrite Qmult_1_l. apply Qmult_inv_r. lra. }
    assert (Hy : 0 < - y) by lra.
    nra.
  - rewrite (prec_transform_nonneg y H).
    rewrite (Qabs_pos y) by exact H.
    rewrite Qabs_pos by lra. lra.
Qed.

Lemma mask_steps_pointwise (v : Q) :
  (let w := if Qle_bool 0 v then v + 1 else v in
   if Qlt_bool w 0 then 1 / (1 - w) else w) = prec_transform v.
Proof.
  unfold prec_transform. cbv zeta.
  destruct (Qle_bool 0 v) eqn:Hv.
  - apply Qle_bool_iff in Hv.
    assert (Hw : Qlt_bool (v + 1) 0 = false).
    { destruct (Qlt_bool (v + 1) 0) eqn:Hb; [| reflexivity].
      apply Qlt_bool_iff in Hb. lra. }
    now rewrite Hw.
  - apply Qle_bool_false_iff in Hv.
    apply Qlt_bool_iff in Hv. now rewrite Hv.
Qed.

Lemma prec_transformation_map (a : list Q) :
  prec_transformation a = List.map prec_transform a.
Proof.
  unfold prec_transformation, mask_neg_recip, mask_nonneg_add1.
  rewrite List.map_map. apply List.map_ext. intros v.
  exact (mask_steps_pointwise v).
Qed.

(** ** The deterministic [massbal] *)

(** The parameter list the forward model is called with. *)
Lemma massbal_forward_call {C E : Type} (ext : externals C E)
    (input : pygem_input) (g : glacier C) (precfactor ddfsnow tempchange : option Q) :
  massbal ext (modelparameters_of input) g precfactor ddfsnow tempchange =
  rbind
    (runmassbalance ext
       [in_lrgcm input; in_lrglac input;
        prec_transform (default (in_precfactor input) precfactor);
        in_precgrad input; default (in_ddfsnow input) ddfsnow;
        in_ddfice input; in_tempsnow input;
        default (in_tempchange input) tempchange]
       (glacier_ctx g))
    (fun series =>
       inr (Qsum (slice series (t1_idx g) (t2_idx g)) / (t2 g - t1 g))).
Proof.
  unfold massbal, modelparameters_of, prec_transform.
  destruct precfactor as [p |], ddfsnow as [d |], tempchange as [t |]; cbn;
    match goal with |- context [Qle_bool 0 ?x] => destruct (Qle_bool 0 x) end;
    reflexivity.
Qed.

(** C1: the precipitation-factor transformation is strictly positive, is
    [x + 1] for [x >= 0] and [1 / (1 - x)] for [x < 0], is strictly
    increasing, and tends to its value 1 at 0 from both sides; the array
    version [prec_transformation] applies it to every element, and the
    deterministic [massbal] hands the forward model the transformed
    candidate. *)
Theorem prec_transformation_correct (x : Q) :
  0 < prec_transform x
  /\ (0 <= x -> prec_transform x == x + 1)
  /\ (x < 0 -> prec_transform x == 1 / (1 - x))
  /\ (forall y : Q, x < y -> prec_transform x < prec_transform y)
  /\ prec_transform 0 == 1
  /\ (forall eps : Q, 0 < eps ->
      exists delta : Q, 0 < delta /\
        forall y : Q, Qabs y < delta -> Qabs (prec_transform y - 1) < eps)
  /\ (forall a : list Q, prec_transformation a = List.map prec_transform a)
  /\ (forall (C E : Type) (ext : externals C E) (input : pygem_input)
        (g : glacier C) (ddfsnow tempchange : Q),
        massbal ext (modelparameters_of input) g
          (Some x) (Some ddfsnow) (Some tempchange) =
        rbind
          (runmassbalance ext
             [in_lrgcm input; in_lrglac input; prec_transform x;
              in_precgrad input; ddfsnow; in_ddfice input; in_tempsnow input;
              tempchange]
             (glacier_ctx g))
          (fun series =>
             inr (Qsum (slice series (t1_idx g) (t2_idx g)) / (t2 g - t1 g)))).
Proof.
  split; [apply prec_transform_pos |].
  split; [intros H; now rewrite (prec_transform_nonneg x H) |].
  split; [intros H; now rewrite (prec_transform_neg x H) |].
  split; [intros y; apply prec_transform_increasing |].
  split; [reflexivity |].
  split.
  { intros eps Heps. exists eps. split; [exact Heps |].
    intros y Hy. eapply Qle_lt_trans; [apply prec_transform_near_0 | exact Hy]. }
  split; [apply prec_transformation_map |].
  intros C E ext input g d t.
  exact (massbal_forward_call ext input g (Some x) (Some d) (Some t)).
Qed.

Lemma prec_transformation_correct_witness :
  0 < prec_transform (-1)
  /\ prec_transform (-1) == 1 / (1 - -1)
  /\ prec_transform (-1) < prec_transform (1 # 2)
  /\ prec_transformation [-1; 0; 1 # 2] = List.map prec_transform [-1; 0; 1 # 2].
Proof.
  destruct (prec_transformation_correct (-1))
    as (Hpos & _ & Hneg & Hinc & _ & _ & Harr & _).
  split; [exact Hpos |].
  split; [apply Hneg; reflexivity |].
  split; [apply Hinc; reflexivity |].
  apply Harr.
Defined.

(** ** The window mean *)

Lemma Qsum_firstn_nth (n : nat) (s : list Q) :
  Qsum (firstn n s) == Qsum (List.map (fun k => nth k s 0) (seq 0 n)).
Proof.
  revert s. induction n as [| n IH]; intros s; [reflexivity |].
  destruct s as [| x s].
  - rewrite firstn_nil. simpl Qsum at 1.
    clear IH. generalize 0%nat. induction (S n) as [| m IHm]; intros i.
    + reflexivity.
    + simpl. rewrite <- (IHm (S i)). destruct i; simpl; lra.
  - simpl. rewrite <- seq_shift, List.map_map.
    rewrite (IH s). reflexivity.
Qed.

Lemma seq_from (i n : nat) : seq i n = List.map (fun k => (i + k)%nat) (seq 0 n).
Proof.
  revert i. induction n as [| n IH]; intros i; [reflexivity |].
  simpl. rewrite Nat.add_0_r. f_equal.
  rewrite (IH (S i)), <- seq_shift, List.map_map.
  apply List.map_ext. intros k. lia.
Qed.

Lemma Qsum_slice (s : list Q) (i j : nat) :
  Qsum (slice s i j) == window_sum s i j.
Proof.
  unfold slice, window_sum.
  rewrite Qsum_firstn_nth, (seq_from i), List.map_map.
  assert (Hext : List.map (fun k => nth k (skipn i s) 0) (seq 0 (j - i)) =
                 List.map (fun k => nth (i + k) s 0) (seq 0 (j - i))).
  { apply List.map_ext. intros k. apply nth_skipn. }
  rewrite Hext. reflexivity.
Qed.

(** C5: the value the sampler compares with the observation is the sum of
    the forward model's glacier-wide series over the indices
    [t1_idx], ..., [t2_idx - 1] divided by [t2 - t1], and the observed value
    of the likelihood node is [mb_mwe / (t2 - t1)]. *)
Theorem massbal_window_mean {C E : Type} (ext : externals C E)
    (input : pygem_input) (g : glacier C)
    (precfactor ddfsnow tempchange : option Q) (series : list Q) :
  runmassbalance ext
    [in_lrgcm input; in_lrglac input;
     prec_transform (default (in_precfactor input) precfactor);
     in_precgrad input; default (in_ddfsnow input) ddfsnow;
     in_ddfice input; in_tempsnow input;
     default (in_tempchange input) tempchange]
    (glacier_ctx g) = inr series ->
  (exists v : Q,
      massbal ext (modelparameters_of input) g precfactor ddfsnow tempchange
        = inr v
      /\ v == window_sum series (t1_idx g) (t2_idx g) / (t2 g - t1 g))
  /\ (forall (a : mcmc_args) (priors : prior * prior * prior),
        m_massbal (mcmc_model_of ext input g a priors)
          = massbal ext (modelparameters_of input) g
        /\ obs_value (m_obs (mcmc_model_of ext input g a priors))
          = mb_mwe g / (t2 g - t1 g)).
Proof.
  intros Hrun. split.
  - rewrite massbal_forward_call, Hrun. simpl.
    eexists. split; [reflexivity |].
    now rewrite Qsum_slice.
  - intros a [[pf tc] ddf]. split; reflexivity.
Qed.

Lemma massbal_window_mean_witness :
  exists v : Q,
    massbal Demo.ext (modelparameters_of Demo.input) Demo.glacier_near
      (Some 0) None None = inr v
    /\ v == 1 # 2.
Proof.
  destruct (massbal_window_mean Demo.ext Demo.input Demo.glacier_near
              (Some 0) None None
              [1 * 0.5 - 0 * 0.0041; 1 * 0.5 - 0 * 0.0041; 1 * 0.25 - 0 * 0.0041])
    as [(v & Hv & Hw) _].
  - vm_compute. reflexivity.
  - exists v. split; [exact Hv |].
    rewrite Hw. vm_compute. reflexivity.
Defined.

(** ** Data frames *)

Lemma column_set_same (cols : list (string * list cell)) (n : string)
    (v : list cell) :
  column (set_column cols n v) n = Some v.
Proof.
  unfold column. induction cols as [| [m old] cols IH]; simpl.
  - now rewrite String.eqb_refl.
  - destruct (String.eqb m n) eqn:Hm; simpl; rewrite Hm; [reflexivity | exact IH].
Qed.

Lemma column_set_other (cols : list (string * list cell)) (n m : string)
    (v : list cell) :
  String.eqb n m = false ->
  column (set_column cols n v) m = column cols m.
Proof.
  intros Hnm. unfold column. induction cols as [| [k old] cols IH]; simpl.
  - now rewrite Hnm.
  - destruct (String.eqb k n) eqn:Hk; simpl.
    + apply String.eqb_eq in Hk. subst k. now rewrite Hnm.
    + destruct (String.eqb k m); [reflexivity | exact IH].
Qed.

Lemma column_filter_other (cols : list (string * list cell)) (n m : string) :
  String.eqb n m = false ->
  column (List.filter (fun c => negb (String.eqb (fst c) n)) cols) m
  = column cols m.
Proof.
  intros Hnm. unfold column. induction cols as [| [k old] cols IH]; simpl.
  - reflexivity.
  - destruct (String.eqb k n) eqn:Hk; simpl.
    + apply String.eqb_eq in Hk. subst k. now rewrite Hnm.
    + destruct (String.eqb k m); [reflexivity | exact IH].
Qed.

Lemma existsb_set_column (cols : list (string * list cell)) (n m : string)
    (v : list cell) :
  existsb (fun c => String.eqb (fst c) m) cols = true ->
  existsb (fun c => String.eqb (fst c) m) (set_column cols n v) = true.
Proof.
  induction cols as [| [k old] cols IH]; simpl; [discriminate |].
  intros H. destruct (String.eqb k n) eqn:Hk; simpl.
  - exact H.
  - destruct (String.eqb k m); [reflexivity | now apply IH].
Qed.

Lemma df_len_setitem (df : DataFrame) (n : string) (v : list cell) :
  df_len (df_setitem df n v) = df_len df.
Proof. reflexivity. Qed.

(** C9: the processed frame has the rows labelled 0, ..., K-1 in order
    under the name 'runs', K being the number of rows of the stratifier's
    frame, and its columns lrgcm, lrglac, precgrad, ddfice and tempsnow
    hold the value of the static configuration in every row. *)
Theorem process_df_runs_and_static (input : pygem_input) (df : DataFrame) :
  has_column df "sorted_index" = true ->
  exists df' : DataFrame,
    process_df input df = inr df'
    /\ df_index df' = List.map (fun i => Int (Z.of_nat i)) (seq 0 (df_len df))
    /\ df_index_name df' = Some "runs"%string
    /\ df_len df' = df_len df
    /\ df_getitem df' "lrgcm" = inr (repeat (Float (in_lrgcm input)) (df_len df))
    /\ df_getitem df' "lrglac" = inr (repeat (Float (in_lrglac input)) (df_len df))
    /\ df_getitem df' "precgrad"
       = inr (repeat (Float (in_precgrad input)) (df_len df))
    /\ df_getitem df' "ddfice" = inr (repeat (Float (in_ddfice input)) (df_len df))
    /\ df_getitem df' "tempsnow"
       = inr (repeat (Float (in_tempsnow input)) (df_len df)).
Proof.
  intros Hcol. unfold process_df.
  rewrite !df_len_setitem.
  set (d5 := df_setitem _ "tempsnow" _).
  assert (Hd5 : has_column d5 "sorted_index" = true).
  { unfold has_column, d5. cbn [df_setitem df_columns].
    repeat apply existsb_set_column. exact Hcol. }
  unfold df_drop. rewrite Hd5. cbn [rbind].
  unfold df_set_index, df_getitem.
  cbn [df_setitem df_columns df_index df_index_name df_columns_name].
  rewrite column_set_same. cbn [rbind].
  eexists. split; [reflexivity |].
  cbn [df_columns df_index df_index_name df_columns_name].
  split; [reflexivity |].
  split; [reflexivity |].
  split.
  { unfold df_len. cbn [df_index]. unfold np_arange.
    now rewrite length_map, length_seq. }
  unfold df_len at 1 3 5 7 9. cbn [df_index].
  unfold d5. cbn [df_setitem df_columns df_index].
  fold (df_len df).
  rewrite !(column_filter_other _ "runs") by reflexivity.
  rewrite !(column_set_other _ "runs") by reflexivity.
  rewrite !(column_filter_other _ "sorted_index") by reflexivity.
  split; [now rewrite !column_set_other, column_set_same by reflexivity |].
  split; [now rewrite !column_set_other, column_set_same by reflexivity |].
  split; [now rewrite !column_set_other, column_set_same by reflexivity |].
  split; [now rewrite !column_set_other, column_set_same by reflexivity |].
  now rewrite column_set_same.
Qed.

(** ** Objects in the store *)

Section Store.
Local Open Scope stmt_scope.
Implicit Types (h : gmap positive (list Q)) (l : positive).

Lemma writes_only_ret {A : Type} l (a : A) : writes_only l (ret a).
Proof. intros h l0 _. reflexivity. Qed.

Lemma writes_only_bind {A B : Type} l (m : ST _ A) (k : A -> ST _ B) :
  writes_only l m -> (forall a, writes_only l (k a)) ->
  writes_only l (bind m k).
Proof.
  intros Hm Hk h l0 Hne. unfold bind.
  specialize (Hm h l0 Hne).
  destruct (m h) as [[e | a] h1]; simpl in *; [exact Hm |].
  rewrite (Hk a h1 l0 Hne). exact Hm.
Qed.

Lemma writes_only_setitem l (i : nat) (v : Q) : writes_only l (Heap.setitem l i v).
Proof.
  intros h l0 Hne. unfold Heap.setitem.
  destruct (list_setitem (h !!! l) i v); simpl; [reflexivity |].
  now apply lookup_insert_ne.
Qed.

Lemma writes_only_update l (f : list Q -> list Q) : writes_only l (Heap.update l f).
Proof. intros h l0 Hne. simpl. now apply lookup_insert_ne. Qed.

Lemma writes_only_substitute l (i : nat) (v : option Q) :
  writes_only l (Heap.substitute l i v).
Proof.
  destruct v; [apply writes_only_setitem | apply writes_only_ret].
Qed.

Lemma writes_only_getitem l (i : nat) : writes_only l (Heap.getitem l i).
Proof. intros h l0 _. reflexivity. Qed.

Lemma writes_only_read {A : Type} l (f : gmap positive (list Q) -> result A) :
  writes_only l (fun h => (f h, h)).
Proof. intros h l0 _. reflexivity. Qed.
End Store.

Create HintDb store.

#[local] Hint Resolve writes_only_ret writes_only_setitem writes_only_update
  writes_only_substitute writes_only_getitem writes_only_read : store.

Ltac writes_only_auto :=
  repeat first
    [ solve [auto with store]
    | match goal with |- writes_only _ (if ?c then _ else _) => destruct c end
    | apply writes_only_bind; [| intros ?] ].

(** The statements of [massbal] on the store compute what [massbal] on the
    list computes. *)
Lemma heap_massbal_value {C E : Type} (ext : externals C E) (g : glacier C)
    (mp : positive) (params : list Q) (h : gmap positive (list Q))
    (precfactor ddfsnow tempchange : option Q) :
  h !! mp = Some params ->
  (Heap.massbal (runmassbalance ext) mp g precfactor ddfsnow tempchange h).1
  = massbal ext params g precfactor ddfsnow tempchange.
Proof.
  intros Hmp.
  unfold Heap.massbal, massbal, Heap.copy, Heap.alloc.
  unfold Heap.substitute, substitute, Heap.setitem, Heap.getitem, bind, ret, rbind.
  cbv beta iota zeta.
  rewrite (lookup_total_correct _ _ _ Hmp).
  set (l := fresh (dom h)).
  destruct precfactor as [x |], ddfsnow as [d |], tempchange as [t |];
    repeat (cbn [fst snd]; rewrite ?lookup_total_insert_eq;
            match goal with
            | |- context [Qle_bool 0 ?p] => destruct (Qle_bool 0 p) eqn:?
            | |- context [list_setitem ?v ?i ?x] =>
                destruct (list_setitem v i x) eqn:?
            | |- context [list_getitem ?v ?i] =>
                destruct (list_getitem v i) eqn:?
            | |- context [runmassbalance ?e ?v ?c] =>
                destruct (runmassbalance e v c) eqn:?
            end);
    reflexivity.
Qed.

Lemma bind_copy {A : Type} (a : positive)
    (k : positive -> ST (gmap positive (list Q)) A)
    (h : gmap positive (list Q)) :
  bind (Heap.copy a) k h
  = k (fresh (dom h)) (<[fresh (dom h) := h !!! a]> h).
Proof. reflexivity. Qed.

Lemma fresh_ne (h : gmap positive (list Q)) (l0 : positive) :
  is_Some (h !! l0) -> l0 <> fresh (dom h).
Proof.
  intros Hl0 ->. apply (is_fresh (dom h)). now apply elem_of_dom.
Qed.

Lemma heap_massbal_frame {C : Type} (fm : list Q -> C -> result (list Q))
    (g : glacier C) (mp : positive) (h : gmap positive (list Q))
    (precfactor ddfsnow tempchange : option Q) (l0 : positive) :
  is_Some (h !! l0) ->
  (Heap.massbal fm mp g precfactor ddfsnow tempchange h).2 !! l0 = h !! l0.
Proof.
  intros Hl0. unfold Heap.massbal. rewrite bind_copy.
  pose proof (fresh_ne h l0 Hl0) as Hne.
  set (l := fresh (dom h)) in *.
  transitivity ((<[l := h !!! mp]> h) !! l0);
    [| now apply lookup_insert_ne].
  match goal with
  | |- (?m (<[l := _]> h)).2 !! l0 = _ =>
      assert (Hw : writes_only l m) by writes_only_auto
  end.
  exact (Hw _ l0 Hne).
Qed.

Lemma heap_prec_transformation_run (raw : positive) (h : gmap positive (list Q)) :
  Heap.prec_transformation raw h
  = (inr (fresh (dom h)),
     <[fresh (dom h) := prec_transformation (h !!! raw)]>
       (<[fresh (dom h) := mask_nonneg_add1 (h !!! raw)]>
          (<[fresh (dom h) := h !!! raw]> h))).
Proof.
  unfold Heap.prec_transformation. rewrite bind_copy.
  unfold bind, Heap.update, ret, prec_transformation. cbn.
  now rewrite !lookup_total_insert_eq.
Qed.

(** C10: [prec_transformation] returns a new array and leaves the array it
    was given, and every other object, as it was; an evaluation of
    [massbal] writes the candidate values and the transformed precipitation
    factor into a copy, and leaves the base [modelparameters], and every
    other object, as it was. *)
Theorem inputs_not_mutated {C E : Type} (ext : externals C E) (g : glacier C)
    (h : gmap positive (list Q)) (raw mp : positive) (a params : list Q)
    (precfactor ddfsnow tempchange : option Q) :
  h !! raw = Some a ->
  h !! mp = Some params ->
  (exists (l : positive) (h' : gmap positive (list Q)),
      Heap.prec_transformation raw h = (inr l, h')
      /\ h !! l = None
      /\ h' !! l = Some (List.map prec_transform a)
      /\ h' !! raw = Some a
      /\ forall l0 : positive, is_Some (h !! l0) -> h' !! l0 = h !! l0)
  /\ (exists (r : result Q) (h' : gmap positive (list Q)),
        Heap.massbal (runmassbalance ext) mp g precfactor ddfsnow tempchange h
          = (r, h')
        /\ r = massbal ext params g precfactor ddfsnow tempchange
        /\ h' !! mp = Some params
        /\ forall l0 : positive, is_Some (h !! l0) -> h' !! l0 = h !! l0).
Proof.
  intros Hraw Hmp. split.
  - rewrite heap_prec_transformation_run.
    rewrite (lookup_total_correct _ _ _ Hraw).
    assert (Hother : forall l0 : positive, is_Some (h !! l0) ->
              <[fresh (dom h) := prec_transformation a]>
                (<[fresh (dom h) := mask_nonneg_add1 a]>
                   (<[fresh (dom h) := a]> h)) !! l0 = h !! l0).
    { intros l0 Hl0. pose proof (fresh_ne h l0 Hl0) as Hne.
      now rewrite !lookup_insert_ne by congruence. }
    eexists _, _. split; [reflexivity |].
    split; [apply not_elem_of_dom, is_fresh |].
    split; [now rewrite lookup_insert_eq, prec_transformation_map |].
    split; [| exact Hother].
    rewrite Hother by (rewrite Hraw; eauto). exact Hraw.
  - destruct (Heap.massbal (runmassbalance ext) mp g precfactor ddfsnow
                tempchange h) as [r h'] eqn:Hrun.
    exists r, h'. split; [reflexivity |].
    pose proof (heap_massbal_value ext g mp params h precfactor ddfsnow
                  tempchange Hmp) as Hval.
    rewrite Hrun in Hval. simpl in Hval.
    assert (Hother : forall l0 : positive, is_Some (h !! l0) -> h' !! l0 = h !! l0).
    { intros l0 Hl0.
      pose proof (heap_massbal_frame (runmassbalance ext) g mp h precfactor
                    ddfsnow tempchange l0 Hl0) as Hfr.
      now rewrite Hrun in Hfr. }
    split; [now symmetry |].
    split; [| exact Hother].
    rewrite Hother by (rewrite Hmp; eauto). exact Hmp.
Qed.

Lemma inputs_not_mutated_witness :
  (exists (l : positive) (h' : gmap positive (list Q)),
      Heap.prec_transformation 1%positive Demo.store0 = (inr l, h')
      /\ h' !! l = Some (List.map prec_transform [-1; 0; 1 # 2])
      /\ h' !! 1%positive = Some [-1; 0; 1 # 2])
  /\ (exists (r : result Q) (h' : gmap positive (list Q)),
        Heap.massbal (runmassbalance Demo.ext) 2%positive Demo.glacier_near
          (Some (-1)) (Some 0.004) (Some 1) Demo.store0 = (r, h')
        /\ h' !! 2%positive = Some (modelparameters_of Demo.input)).
Proof.
  destruct (inputs_not_mutated Demo.ext Demo.glacier_near Demo.store0
              1%positive 2%positive [-1; 0; 1 # 2]
              (modelparameters_of Demo.input) (Some (-1)) (Some 0.004) (Some 1))
    as [(l & h1 & Hrun1 & _ & Hnew & Hold & _) (r & h2 & Hrun2 & _ & Hbase & _)].
  - reflexivity.
  - reflexivity.
  - split.
    + exists l, h1. split; [exact Hrun1 |]. split; [exact Hnew | exact Hold].
    + exists r, h2. split; [exact Hrun2 | exact Hbase].
Defined.

Lemma process_df_runs_and_static_witness :
  exists df' : DataFrame,
    process_df Demo.input Demo.frame0 = inr df'
    /\ df_index df' = [Int 0; Int 1; Int 2]
    /\ df_getitem df' "ddfice" = inr [Float 0.0082; Float 0.0082; Float 0.0082].
Proof.
  destruct (process_df_runs_and_static Demo.input Demo.frame0 eq_refl)
    as (df' & Hrun & Hidx & _ & _ & _ & _ & _ & Hice & _).
  exists df'. split; [exact Hrun |]. split; [exact Hidx | exact Hice].
Defined.

(** ** Sampler runs of one glacier *)

Lemma sampler_runs_app (l1 l2 : list event) :
  sampler_runs (l1 ++ l2) = sampler_runs l1 ++ sampler_runs l2.
Proof.
  induction l1 as [| ev l1 IH]; [reflexivity |].
  destruct ev; simpl; now rewrite IH.
Qed.

Section Runs.
Context {C E : Type}.
Variable ext : externals C E.
Variable input : pygem_input.

Lemma keeps_runs_ret {A : Type} (a : A) : keeps_runs (E := E) (ret a).
Proof. intros w. reflexivity. Qed.

Lemma keeps_runs_raise {A : Type} (e : exn) : keeps_runs (E := E) (A := A) (raise e).
Proof. intros w. reflexivity. Qed.

Lemma keeps_runs_lift {A : Type} (r : result A) : keeps_runs (E := E) (lift r).
Proof. intros w. reflexivity. Qed.

Lemma keeps_runs_call {A : Type} (f : E -> result A * E) : keeps_runs (call f).
Proof. intros w. unfold call. now destruct (f (w_ext w)). Qed.

Lemma keeps_runs_to_netcdf (name : string) (df : DataFrame) :
  keeps_runs (E := E) (to_netcdf name df).
Proof. intros w. reflexivity. Qed.

Lemma keeps_runs_printed (s : string) (m : option Q) :
  keeps_runs (E := E) (emit (Printed s m)).
Proof.
  intros w. unfold runs. simpl. rewrite sampler_runs_app. simpl.
  apply app_nil_r.
Qed.

Lemma keeps_runs_outside (s : string) :
  keeps_runs (E := E) (emit (StillOutside s)).
Proof.
  intros w. unfold runs. simpl. rewrite sampler_runs_app. simpl.
  apply app_nil_r.
Qed.

End Runs.

Create HintDb runs.

#[local] Hint Resolve keeps_runs_ret keeps_runs_raise keeps_runs_lift
  keeps_runs_call keeps_runs_to_netcdf keeps_runs_printed
  keeps_runs_outside : runs.


Section RunsOfGlacier.
Context {C E : Type}.
Variable ext : externals C E.
Variable input : pygem_input.








End RunsOfGlacier.

(** ** The retry *)

Section Retry.
Context {C E : Type}.
Variable ext : externals C E.
Variable input : pygem_input.


End Retry.





(** ** The glacier loop and its output files *)

Section Files.
Context {E : Type}.

Lemma bind_inr {A B : Type} (m : M E A) (k : A -> M E B) (w w' : world E) (b : B) :
  bind m k w = (inr b, w') ->
  exists (a : A) (w1 : world E), m w = (inr a, w1) /\ k a w1 = (inr b, w').
Proof.
  unfold bind. destruct (m w) as [[e | a] w1]; [discriminate |].
  intros H. now exists a, w1.
Qed.

Lemma bind_inl {A B : Type} (m : M E A) (k : A -> M E B) (w w' : world E) (e : exn) :
  bind m k w = (inl e, w') ->
  m w = (inl e, w')
  \/ exists (a : A) (w1 : world E), m w = (inr a, w1) /\ k a w1 = (inl e, w').
Proof.
  unfold bind. destruct (m w) as [[e0 | a] w1].
  - intros H. left. now inversion H.
  - intros H. right. now exists a, w1.
Qed.

Lemma keeps_files_ret {A : Type} (a : A) : keeps_files (E := E) (ret a).
Proof. intros w. reflexivity. Qed.

Lemma keeps_files_raise {A : Type} (e : exn) :
  keeps_files (E := E) (A := A) (raise e).
Proof. intros w. reflexivity. Qed.

Lemma keeps_files_lift {A : Type} (r : result A) : keeps_files (E := E) (lift r).
Proof. intros w. reflexivity. Qed.

Lemma keeps_files_call {A : Type} (f : E -> result A * E) : keeps_files (call f).
Proof. intros w. unfold call. now destruct (f (w_ext w)). Qed.

Lemma keeps_files_emit (ev : event) : keeps_files (E := E) (emit ev).
Proof. intros w. reflexivity. Qed.

Lemma keeps_files_bind {A B : Type} (m : M E A) (k : A -> M E B) :
  keeps_files m -> (forall a, keeps_files (k a)) -> keeps_files (bind m k).
Proof.
  intros Hm Hk w. unfold bind. specialize (Hm w).
  destruct (m w) as [[e | a] w1]; simpl in *; [exact Hm |].
  now rewrite (Hk a w1).
Qed.

Lemma keeps_files_no_file_on_error {A : Type} (m : M E A) :
  keeps_files m -> no_file_on_error m.
Proof. intros Hm w w' e H. specialize (Hm w). now rewrite H in Hm. Qed.

Lemma keeps_files_grow {A : Type} (m : M E A) : keeps_files m -> files_grow m.
Proof. intros Hm w name H. now rewrite (Hm w). Qed.

Lemma no_file_on_error_bind {A B : Type} (m : M E A) (k : A -> M E B) :
  keeps_files m -> (forall a, no_file_on_error (k a)) ->
  no_file_on_error (bind m k).
Proof.
  intros Hm Hk w w' e H. apply bind_inl in H as [H | (a & w1 & H1 & H2)].
  - exact (keeps_files_no_file_on_error m Hm w w' e H).
  - rewrite (Hk a w1 w' e H2). specialize (Hm w). now rewrite H1 in Hm.
Qed.

Lemma no_file_on_error_to_netcdf (name : string) (df : DataFrame) :
  no_file_on_error (E := E) (to_netcdf name df).
Proof. intros w w' e H. discriminate H. Qed.

Lemma files_grow_to_netcdf (name : string) (df : DataFrame) :
  files_grow (E := E) (to_netcdf name df).
Proof.
  intros w n H. simpl. destruct (decide (name = n)) as [-> | Hne].
  - rewrite lookup_insert_eq. eauto.
  - now rewrite lookup_insert_ne.
Qed.

Lemma files_grow_bind {A B : Type} (m : M E A) (k : A -> M E B) :
  files_grow m -> (forall a, files_grow (k a)) -> files_grow (bind m k).
Proof.
  intros Hm Hk w name H. unfold bind. specialize (Hm w name H).
  destruct (m w) as [[e | a] w1]; simpl in *; [exact Hm |].
  now apply Hk.
Qed.
End Files.

Create HintDb files.

#[local] Hint Resolve keeps_files_ret keeps_files_raise keeps_files_lift
  keeps_files_call keeps_files_emit : files.

Ltac keeps_files_auto :=
  repeat first
    [ solve [auto with files]
    | match goal with
      | |- keeps_files (if ?c then _ else _) => destruct c
      | |- keeps_files (match ?o with Some _ => _ | None => _ end) => destruct o
      end
    | apply keeps_files_bind; [| intros ?] ].

Section FilesOfGlacier.
Context {C E : Type}.
Variable ext : externals C E.
Variable input : pygem_input.

Lemma keeps_files_run_MCMC (g : glacier C) (a : mcmc_args) :
  keeps_files (run_MCMC ext input g a).
Proof.
  unfold run_MCMC, assign_priors, truncnormal_prior, uniform_prior.
  keeps_files_auto.
Qed.

Lemma keeps_files_plot (g : glacier C) (dt : string) (tr : traces) :
  keeps_files (plot_mc_results ext g dt tr).
Proof. unfold plot_mc_results. keeps_files_auto. Qed.

Lemma keeps_files_fit_first (g : glacier C) : keeps_files (fit_first ext input g).
Proof.
  unfold fit_first.
  pose proof keeps_files_run_MCMC. pose proof keeps_files_plot.
  keeps_files_auto.
Qed.

Lemma keeps_files_adjust_priors (g : glacier C) (tr : traces) :
  keeps_files (adjust_priors ext input g tr).
Proof.
  unfold adjust_priors.
  pose proof keeps_files_run_MCMC. pose proof keeps_files_plot.
  destruct (outside_tolerance g (tr_massbal tr)); cbv zeta; keeps_files_auto.
Qed.

Lemma no_file_on_error_export (g : glacier C) (tr : traces) :
  no_file_on_error (export_ensemble ext input g tr).
Proof.
  unfold export_ensemble.
  do 5 (apply no_file_on_error_bind; [keeps_files_auto | intros ?]).
  apply no_file_on_error_to_netcdf.
Qed.

Lemma files_grow_export (g : glacier C) (tr : traces) :
  files_grow (export_ensemble ext input g tr).
Proof.
  unfold export_ensemble.
  do 5 (apply files_grow_bind;
        [apply keeps_files_grow; keeps_files_auto | intros ?]).
  apply files_grow_to_netcdf.
Qed.

(** A pass that raises has written no output file. *)
Lemma no_file_on_error_calibrate (g : glacier C) :
  no_file_on_error (calibrate_glacier ext input g).
Proof.
  unfold calibrate_glacier.
  apply no_file_on_error_bind; [apply keeps_files_fit_first | intros tr].
  apply no_file_on_error_bind; [apply keeps_files_adjust_priors | intros tr'].
  apply no_file_on_error_export.
Qed.

Lemma files_grow_calibrate (g : glacier C) :
  files_grow (calibrate_glacier ext input g).
Proof.
  unfold calibrate_glacier.
  apply files_grow_bind;
    [apply keeps_files_grow, keeps_files_fit_first | intros tr].
  apply files_grow_bind;
    [apply keeps_files_grow, keeps_files_adjust_priors | intros tr'].
  apply files_grow_export.
Qed.

(** A pass that returns has written the file of its glacier. *)
Lemma calibrate_writes (g : glacier C) (w w' : world E) :
  calibrate_glacier ext input g w = (inr tt, w') ->
  is_Some (w_files w' !! (glacier_str g +:+ ".nc")).
Proof.
  unfold calibrate_glacier. intros H.
  apply bind_inr in H as (tr & w1 & _ & H).
  apply bind_inr in H as (tr' & w2 & _ & H).
  unfold export_ensemble in H.
  repeat (apply bind_inr in H as (? & ? & _ & H)).
  unfold to_netcdf in H. inversion H. simpl.
  rewrite lookup_insert_eq. eauto.
Qed.

Lemma glacier_loop_app (pre rest : list (glacier C)) (w : world E) :
  glacier_loop ext input (pre ++ rest) w =
  match glacier_loop ext input pre w with
  | (inr _, w1) => glacier_loop ext input rest w1
  | (inl e, w1) => (inl e, w1)
  end.
Proof.
  revert w. induction pre as [| g pre IH]; intros w; [reflexivity |].
  simpl. unfold bind.
  destruct (calibrate_glacier ext input g w) as [[e | []] w1]; [reflexivity |].
  apply IH.
Qed.

Lemma files_grow_glacier_loop (gs : list (glacier C)) :
  files_grow (glacier_loop ext input gs).
Proof.
  induction gs as [| g gs IH]; simpl.
  - apply keeps_files_grow, keeps_files_ret.
  - apply files_grow_bind; [apply files_grow_calibrate | intros _; exact IH].
Qed.

(** A loop that returns has written the file of every glacier. *)
Lemma glacier_loop_persisted (gs : list (glacier C)) (w w' : world E) :
  glacier_loop ext input gs w = (inr tt, w') ->
  forall g : glacier C,
    In g gs -> is_Some (w_files w' !! (glacier_str g +:+ ".nc")).
Proof.
  revert w. induction gs as [| g0 gs IH]; intros w Hloop g Hin; [contradiction |].
  simpl in Hloop. apply bind_inr in Hloop as ([] & w1 & Hg0 & Hrest).
  destruct Hin as [<- | Hin].
  - pose proof (files_grow_glacier_loop gs w1 _ (calibrate_writes g0 w w1 Hg0)) as H.
    now rewrite Hrest in H.
  - exact (IH w1 Hrest g Hin).
Qed.
End FilesOfGlacier.

(** C6, as the script has it: an exception raised while one glacier is
    calibrated is not caught; it leaves [main], the glaciers before it in
    the batch have their files, and neither the failing glacier nor any
    glacier after it is written. *)
Theorem error_aborts_batch {C E : Type} (ext : externals C E)
    (input : pygem_input) (pre post : list (glacier C)) (g : glacier C)
    (w w1 w2 : world E) (e : exn) :
  in_option_calibration input = 2%nat ->
  main ext input pre w = (inr tt, w1) ->
  calibrate_glacier ext input g w1 = (inl e, w2) ->
  main ext input (pre ++ g :: post) w = (inl e, w2)
  /\ w_files w2 = w_files w1
  /\ forall g0 : glacier C,
       In g0 pre -> is_Some (w_files w2 !! (glacier_str g0 +:+ ".nc")).
Proof.
  intros Hopt Hpre Hg. unfold main in *. rewrite Hopt in *. simpl in *.
  pose proof (no_file_on_error_calibrate ext input g w1 w2 e Hg) as Hfiles.
  split; [| split].
  - rewrite glacier_loop_app, Hpre. simpl. unfold bind. now rewrite Hg.
  - exact Hfiles.
  - intros g0 Hin. rewrite Hfiles.
    exact (glacier_loop_persisted ext input pre w w1 Hpre g0 Hin).
Qed.

Lemma error_aborts_batch_witness :
  exists w2 : world unit,
    main Demo.ext Demo.input
      [Demo.glacier_near; Demo.glacier_bad; Demo.glacier_far] Demo.world0
    = (inl (Raised "FloatingPointError"), w2)
    /\ is_Some (w_files w2 !! "15.00001.nc"%string).
Proof.
  edestruct (error_aborts_batch Demo.ext Demo.input [Demo.glacier_near]
               [Demo.glacier_far] Demo.glacier_bad Demo.world0)
    as (Hmain & _ & Hpre).
  - reflexivity.
  - vm_compute. reflexivity.
  - vm_compute. reflexivity.
  - eexists. split; [exact Hmain |].
    apply (Hpre Demo.glacier_near). now left.
Defined.

(** The claim C6 fails on a batch of two glaciers: the first has no climate
    data and its forward model raises; the exception leaves [main], and the
    second glacier, which calibrates when it is run alone, has no file. *)
Lemma batch_error_not_isolated :
  fst (main Demo.ext Demo.input [Demo.glacier_bad; Demo.glacier_near]
         Demo.world0) = inl (Raised "FloatingPointError")
  /\ w_files (snd (main Demo.ext Demo.input
                     [Demo.glacier_bad; Demo.glacier_near] Demo.world0))
       !! "15.00001.nc"%string = None
  /\ is_Some (w_files (snd (main Demo.ext Demo.input [Demo.glacier_near]
                              Demo.world0)) !! "15.00001.nc"%string).
Proof.
  split; [vm_compute; reflexivity |].
  split; [vm_compute; reflexivity |].
  vm_compute. eauto.
Qed.

(** ** Prior assignment *)

Lemma Qeq_bool_false (x y : Q) : ~ x == y -> Qeq_bool x y = false.
Proof.
  intros H. destruct (Qeq_bool x y) eqn:Hb; [| reflexivity].
  apply Qeq_bool_iff in Hb. contradiction.
Qed.

Lemma truncnormal_prior_handed {C E : Type} (ext : externals C E)
    (name : string) (s : prior_spec) :
  ~ sigma s == 0 ->
  truncnormal_prior ext name s
  = bind (call (pymc_stochastic ext (truncnormal_of name s)))
      (fun _ => ret (truncnormal_of name s)).
Proof.
  intros Hs. unfold truncnormal_prior, zscore, precision.
  rewrite (Qeq_bool_false _ _ Hs). reflexivity.
Qed.

Lemma quiet_ret {E A : Type} (a : A) : quiet (E := E) (ret a).
Proof. intros w. now split. Qed.

Lemma quiet_raise {E A : Type} (e : exn) : quiet (E := E) (A := A) (raise e).
Proof. intros w. now split. Qed.

Lemma quiet_lift {E A : Type} (r : result A) : quiet (E := E) (lift r).
Proof. intros w. now split. Qed.

Lemma quiet_call {E A : Type} (f : E -> result A * E) : quiet (call f).
Proof. intros w. unfold call. now destruct (f (w_ext w)). Qed.

Lemma quiet_bind {E A B : Type} (m : M E A) (k : A -> M E B) :
  quiet m -> (forall a, quiet (k a)) -> quiet (bind m k).
Proof.
  intros Hm Hk w. unfold bind. destruct (Hm w) as [F L].
  destruct (m w) as [[e | a] w1]; simpl in *; [now split |].
  destruct (Hk a w1) as [F' L']. split; congruence.
Qed.

Lemma quiet_assign_priors {C E : Type} (ext : externals C E) (a : mcmc_args) :
  quiet (assign_priors ext a).
Proof.
  unfold assign_priors, truncnormal_prior, uniform_prior.
  repeat first
    [ apply quiet_ret | apply quiet_raise | apply quiet_lift | apply quiet_call
    | match goal with |- quiet (if ?c then _ else _) => destruct c end
    | apply quiet_bind; [| intros ?] ].
Qed.

Lemma assign_priors_truncnormal {C E : Type} (ext : externals C E)
    (a : mcmc_args) (w : world E) :
  distribution_type a = "truncnormal"%string ->
  ~ sigma (precfactor_spec a) == 0 ->
  ~ sigma (tempchange_spec a) == 0 ->
  ~ sigma (ddfsnow_spec a) == 0 ->
  assign_priors ext a w
  = hand_over ext (truncnormal_of "precfactor" (precfactor_spec a))
      (truncnormal_of "tempchange" (tempchange_spec a))
      (truncnormal_of "ddfsnow" (ddfsnow_spec a)) w.
Proof.
  intros Hdt H1 H2 H3. unfold assign_priors. rewrite Hdt. simpl.
  rewrite !truncnormal_prior_handed by assumption.
  unfold hand_over, bind, ret.
  repeat match goal with
         | |- context [call ?f ?w0] => destruct (call f w0) as [[? | []] ?]
         end; reflexivity.
Qed.

Lemma assign_priors_uniform {C E : Type} (ext : externals C E)
    (a : mcmc_args) (w : world E) :
  distribution_type a = "uniform"%string ->
  assign_priors ext a w
  = hand_over ext (uniform_of "precfactor" (precfactor_spec a))
      (uniform_of "tempchange" (tempchange_spec a))
      (uniform_of "ddfsnow" (ddfsnow_spec a)) w.
Proof.
  intros Hdt. unfold assign_priors. rewrite Hdt. simpl.
  unfold uniform_prior, uniform_of, hand_over, bind, ret.
  repeat match goal with
         | |- context [call ?f ?w0] => destruct (call f w0) as [[? | []] ?]
         end; reflexivity.
Qed.

Lemma hand_over_accepted {C E : Type} (ext : externals C E)
    (p1 p2 p3 : prior) (w : world E) :
  (forall (p : prior) (e : E), pymc_stochastic ext p e = (inr tt, e)) ->
  hand_over ext p1 p2 p3 w = (inr (p1, p2, p3), w).
Proof.
  intros Hlib. unfold hand_over, bind, call, ret.
  rewrite !Hlib. simpl. now destruct w.
Qed.

(** C7, as the script has it: prior assignment checks nothing.  With
    'truncnormal' and a zero standard deviation of the precipitation factor
    the z-score raises ZeroDivisionError before any prior is built; with
    non-zero standard deviations, of either sign and with the bounds in
    either order, the three priors go to the library with
    tau = 1/sigma^2, a = (lo - mu)/sigma, b = (hi - mu)/sigma; with
    'uniform' they go to the library with their bounds in either order.
    Where the library accepts the three priors they are returned, and
    whatever the outcome no file is written and nothing is logged. *)
Theorem assign_priors_unvalidated {C E : Type} (ext : externals C E)
    (a : mcmc_args) (w : world E) :
  (distribution_type a = "truncnormal"%string ->
   sigma (precfactor_spec a) == 0 ->
   assign_priors ext a w = (inl ZeroDivisionError, w))
  /\ (distribution_type a = "truncnormal"%string ->
      ~ sigma (precfactor_spec a) == 0 ->
      ~ sigma (tempchange_spec a) == 0 ->
      ~ sigma (ddfsnow_spec a) == 0 ->
      assign_priors ext a w
      = hand_over ext (truncnormal_of "precfactor" (precfactor_spec a))
          (truncnormal_of "tempchange" (tempchange_spec a))
          (truncnormal_of "ddfsnow" (ddfsnow_spec a)) w)
  /\ (distribution_type a = "uniform"%string ->
      assign_priors ext a w
      = hand_over ext (uniform_of "precfactor" (precfactor_spec a))
          (uniform_of "tempchange" (tempchange_spec a))
          (uniform_of "ddfsnow" (ddfsnow_spec a)) w)
  /\ (forall p1 p2 p3 : prior,
        (forall (p : prior) (e : E), pymc_stochastic ext p e = (inr tt, e)) ->
        hand_over ext p1 p2 p3 w = (inr (p1, p2, p3), w))
  /\ w_files (assign_priors ext a w).2 = w_files w
  /\ w_log (assign_priors ext a w).2 = w_log w.
Proof.
  split.
  { intros Hdt Hs. unfold assign_priors. rewrite Hdt. simpl.
    unfold truncnormal_prior, zscore, bind at 1 2, lift.
    apply Qeq_bool_iff in Hs. now rewrite Hs. }
  split; [apply assign_priors_truncnormal |].
  split; [apply assign_priors_uniform |].
  split; [intros p1 p2 p3; apply hand_over_accepted |].
  exact (quiet_assign_priors ext a w).
Qed.

Lemma assign_priors_unvalidated_witness :
  assign_priors Demo.ext Demo.args_crossed Demo.world0
  = (inr (Uniform "precfactor" (-2) 2, Uniform "tempchange" 10 (-10),
          Uniform "ddfsnow" ddfsnow_boundlow ddfsnow_boundhigh),
     Demo.world0).
Proof.
  destruct (assign_priors_unvalidated Demo.ext Demo.args_crossed Demo.world0)
    as (_ & _ & Huniform & Haccepted & _).
  rewrite (Huniform eq_refl). apply Haccepted.
  intros p e. reflexivity.
Defined.

(** The claim C7 fails for a truncated normal prior with standard
    deviation 0: the construction raises ZeroDivisionError, which is no
    ConfigurationError. *)
Lemma invalid_prior_no_configuration_error :
  sigma (precfactor_spec Demo.args_sigma0) <= 0
  /\ assign_priors Demo.ext Demo.args_sigma0 Demo.world0
     = (inl ZeroDivisionError, Demo.world0)
  /\ exn_name ZeroDivisionError <> "ConfigurationError"%string.
Proof.
  split; [discriminate |].
  split; [reflexivity | discriminate].
Qed.

(** ** Length of the traces *)

Lemma div_succ (k t : nat) :
  (0 < t)%nat ->
  (S k / t = k / t + (if (S k mod t =? 0)%nat then 1 else 0))%nat.
Proof.
  intros Ht.
  pose proof (Nat.div_mod_eq k t) as Hk.
  pose proof (Nat.mod_upper_bound k t ltac:(lia)) as Hkb.
  destruct (Nat.eq_dec (S (k mod t)) t) as [Heq | Hne].
  - assert (Hq : (S k / t = S (k / t))%nat).
    { symmetry. apply (Nat.div_unique (S k) t (S (k / t)) 0); nia. }
    assert (Hr : (S k mod t = 0)%nat).
    { symmetry. apply (Nat.mod_unique (S k) t (S (k / t)) 0); nia. }
    rewrite Hq, Hr. simpl. lia.
  - assert (Hq : (S k / t = k / t)%nat).
    { symmetry. apply (Nat.div_unique (S k) t (k / t) (S (k mod t))); nia. }
    assert (Hr : (S k mod t = S (k mod t))%nat).
    { symmetry. apply (Nat.mod_unique (S k) t (k / t) (S (k mod t))); nia. }
    rewrite Hq, Hr. simpl. lia.
Qed.

Lemma count_retained_snoc (opts : sample_opts) (n i : nat) :
  count_retained opts (S n) i
  = (count_retained opts n i
     + (if Sampler.retained opts (i + n) then 1 else 0))%nat.
Proof.
  revert i. induction n as [| n IH]; intros i.
  - cbn [count_retained]. replace (i + 0)%nat with i by lia.
    destruct (Sampler.retained opts i); lia.
  - change (count_retained opts (S (S n)) i)
      with ((if Sampler.retained opts i then 1 else 0)
            + count_retained opts (S n) (S i))%nat.
    rewrite (IH (S i)). cbn [count_retained].
    replace (S i + n)%nat with (i + S n)%nat by lia.
    destruct (Sampler.retained opts i), (Sampler.retained opts (i + S n)); lia.
Qed.

(** Of the iterations 1, ..., [n], [(n - burn) / thin] are retained. *)
Lemma count_retained_div (opts : sample_opts) (n : nat) :
  (0 < s_thin opts)%nat ->
  count_retained opts n 1 = ((n - s_burn opts) / s_thin opts)%nat.
Proof.
  intros Ht. induction n as [| n IH].
  - cbn [count_retained]. rewrite Nat.sub_0_l. symmetry.
    apply Nat.Div0.div_0_l.
  - rewrite count_retained_snoc, IH. unfold Sampler.retained.
    replace (1 + n)%nat with (S n) by lia.
    destruct (s_burn opts <? S n)%nat eqn:Hb; simpl.
    + apply Nat.ltb_lt in Hb.
      replace (S n - s_burn opts)%nat with (S (n - s_burn opts)) by lia.
      now rewrite (div_succ _ _ Ht).
    + apply Nat.ltb_ge in Hb.
      replace (S n - s_burn opts)%nat with 0%nat by lia.
      replace (n - s_burn opts)%nat with 0%nat by lia. lia.
Qed.

Lemma traces_of_length_empty : traces_of_length Sampler.empty_db 0.
Proof.
  intros v Hin. exists []. split; [| reflexivity].
  unfold Sampler.empty_db.
  destruct Hin as [<- | [<- | [<- | [<- | []]]]]; reflexivity.
Qed.

Lemma traces_of_length_tally (c : chain) (db : gmap string (list Q)) (n : nat) :
  traces_of_length db n -> traces_of_length (Sampler.tally c db) (S n).
Proof.
  intros Hdb v Hin.
  destruct (Hdb v Hin) as (tr & Hv & Hlen).
  pose proof (lookup_total_correct _ _ _ Hv) as Htot.
  unfold Sampler.tally.
  destruct Hin as [<- | [<- | [<- | [<- | []]]]].
  - rewrite lookup_insert_eq, Htot. eexists. split; [reflexivity |].
    rewrite length_app. simpl. lia.
  - rewrite lookup_insert_ne by discriminate.
    rewrite lookup_insert_eq, Htot. eexists. split; [reflexivity |].
    rewrite length_app. simpl. lia.
  - do 2 rewrite lookup_insert_ne by discriminate.
    rewrite lookup_insert_eq, Htot. eexists. split; [reflexivity |].
    rewrite length_app. simpl. lia.
  - do 3 rewrite lookup_insert_ne by discriminate.
    rewrite lookup_insert_eq, Htot. eexists. split; [reflexivity |].
    rewrite length_app. simpl. lia.
Qed.

Section SamplerLength.
Context {E : Type}.
Variable k : kernel E.
Variable model : mcmc_model.
Variable opts : sample_opts.

Lemma iterate_length (n : nat) :
  forall (i : nat) (cur : chain) (db db' : gmap string (list Q)) (e e' : E)
         (c : nat),
    traces_of_length db c ->
    Sampler.iterate k model opts n i cur db e = (inr db', e') ->
    traces_of_length db' (c + count_retained opts n i).
Proof.
  induction n as [| n IH]; intros i cur db db' e e' c Hdb Hrun.
  - simpl in Hrun. inversion Hrun; subst. simpl. now rewrite Nat.add_0_r.
  - simpl in Hrun. unfold bind in Hrun.
    destruct (Sampler.iteration k model opts i cur e) as [[ex | cur'] e1];
      [discriminate |].
    cbn [count_retained].
    destruct (Sampler.retained opts i).
    + apply (IH _ _ _ _ _ _ (S c)) in Hrun;
        [| now apply traces_of_length_tally].
      now replace (c + (1 + count_retained opts n (S i)))%nat
        with (S c + count_retained opts n (S i))%nat by lia.
    + apply (IH _ _ _ _ _ _ c Hdb) in Hrun. exact Hrun.
Qed.

Lemma sample_length (e e' : E) (db : gmap string (list Q)) :
  (0 < s_thin opts)%nat ->
  Sampler.sample k model opts e = (inr db, e') ->
  traces_of_length db ((s_iter opts - s_burn opts) / s_thin opts).
Proof.
  intros Ht Hrun. unfold Sampler.sample in Hrun.
  destruct (k_init k model e) as [start e0].
  destruct (Sampler.evaluate model start) as [ex | c]; [discriminate |].
  apply (iterate_length _ _ _ _ _ _ _ 0 traces_of_length_empty) in Hrun.
  now rewrite <- (count_retained_div opts (s_iter opts) Ht).
Qed.

(** The loop returns when every evaluation of the deterministic does. *)
Lemma iterate_completes (n : nat) :
  (forall p d t : option Q, exists v : Q, m_massbal model p d t = inr v) ->
  forall (i : nat) (cur : chain) (db : gmap string (list Q)) (e : E),
  exists (db' : gmap string (list Q)) (e' : E),
    Sampler.iterate k model opts n i cur db e = (inr db', e').
Proof.
  intros Hfm. induction n as [| n IH]; intros i cur db e.
  - now exists db, e.
  - simpl. unfold bind, Sampler.iteration.
    destruct (k_propose k model opts i cur e) as [[[p t] d] e1].
    unfold Sampler.evaluate.
    destruct (Hfm (Some p) (Some d) (Some t)) as (v & Hv). rewrite Hv. simpl.
    destruct (k_accept k model cur _ e1) as [ok e2].
    apply IH.
Qed.
End SamplerLength.

(** The sampler returns when the library accepts the priors and the
    forward model returns at every candidate. *)
Lemma run_MCMC_returns {C E : Type} (k : kernel E) (ext : externals C E)
    (input : pygem_input) (g : glacier C) (a : mcmc_args) (w : world E) :
  (forall (p : prior) (e : E), pymc_stochastic ext p e = (inr tt, e)) ->
  (distribution_type a = "truncnormal"%string
   /\ ~ sigma (precfactor_spec a) == 0
   /\ ~ sigma (tempchange_spec a) == 0
   /\ ~ sigma (ddfsnow_spec a) == 0)
  \/ distribution_type a = "uniform"%string ->
  (forall p d t : option Q,
      exists v : Q, massbal ext (modelparameters_of input) g p d t = inr v) ->
  exists (db : gmap string (list Q)) (w' : world E),
    run_MCMC (with_sampler k ext) input g a w = (inr db, w').
Proof.
  intros Hlib Hdt Hfm.
  assert (Hpri : exists priors : prior * prior * prior,
             forall w0 : world E,
               assign_priors (with_sampler k ext) a w0 = (inr priors, w0)).
  { destruct Hdt as [(Hdt & H1 & H2 & H3) | Hdt].
    - eexists. intros w0.
      rewrite (assign_priors_truncnormal _ a w0 Hdt H1 H2 H3).
      now apply hand_over_accepted.
    - eexists. intros w0. rewrite (assign_priors_uniform _ a w0 Hdt).
      now apply hand_over_accepted. }
  destruct Hpri as (priors & Hpri).
  unfold run_MCMC, bind, emit. rewrite Hpri.
  unfold call. cbn [pymc_sample with_sampler w_ext].
  unfold Sampler.sample.
  destruct (k_init k _ (w_ext w)) as [[[p t] d] e0].
  set (model := mcmc_model_of (with_sampler k ext) input g a priors).
  assert (Hmodel : forall p d t : option Q,
             exists v : Q, m_massbal model p d t = inr v).
  { intros p' d' t'. unfold model. destruct priors as [[? ?] ?]. apply Hfm. }
  unfold Sampler.evaluate at 1.
  destruct (Hmodel (Some p) (Some d) (Some t)) as (v & Hv). rewrite Hv.
  cbn [rbind].
  destruct (iterate_completes k model (sample_opts_of a) (s_iter (sample_opts_of a))
              Hmodel 1%nat
              {| c_precfactor := p; c_tempchange := t; c_ddfsnow := d;
                 c_massbal := v |}
              Sampler.empty_db e0) as (db & e' & Hit).
  rewrite Hit. eauto.
Qed.

(** C4: a run of the sampler that returns has, for each of massbal,
    precfactor, tempchange and ddfsnow, a trace of length
    floor((iterations - burn) / thin); the four lengths are therefore the
    same. *)
Theorem trace_length {C E : Type} (k : kernel E) (ext : externals C E)
    (input : pygem_input) (g : glacier C) (a : mcmc_args) (w w' : world E)
    (db : gmap string (list Q)) :
  (0 < thin a)%nat ->
  run_MCMC (with_sampler k ext) input g a w = (inr db, w') ->
  forall v : string,
    In v variables ->
    exists tr : list Q,
      model_trace db v = inr tr
      /\ length tr = ((iterations a - burn a) / thin a)%nat.
Proof.
  intros Ht Hrun v Hin. unfold run_MCMC in Hrun.
  apply bind_inr in Hrun as ([] & w1 & _ & Hrun).
  apply bind_inr in Hrun as (priors & w2 & _ & Hrun).
  unfold call in Hrun. cbn [pymc_sample with_sampler] in Hrun.
  destruct (Sampler.sample k _ _ (w_ext w2)) as [r e'] eqn:Hs.
  inversion Hrun; subst r.
  pose proof (sample_length k _ (sample_opts_of a) _ _ _ Ht Hs v Hin)
    as (tr & Hv & Hlen).
  exists tr. unfold model_trace. rewrite Hv. now split.
Qed.

Lemma trace_length_witness :
  exists (db : gmap string (list Q)) (w' : world unit) (tr : list Q),
    run_MCMC Demo.ext Demo.input Demo.glacier_near Demo.args_thin2 Demo.world0
      = (inr db, w')
    /\ model_trace db "precfactor" = inr tr
    /\ length tr = 2%nat.
Proof.
  destruct (run_MCMC_returns Demo.kern Demo.ext Demo.input Demo.glacier_near
              Demo.args_thin2 Demo.world0) as (db & w' & Hrun).
  - intros p e. reflexivity.
  - left. repeat split; discriminate.
  - intros p d t. rewrite massbal_forward_call. simpl. eauto.
  - assert (Hthin : (0 < thin Demo.args_thin2)%nat) by (cbn; lia).
    destruct (trace_length Demo.kern Demo.ext Demo.input Demo.glacier_near
                Demo.args_thin2 Demo.world0 w' db Hthin Hrun
                "precfactor"%string)
      as (tr & Htr & Hlen); [right; now left |].
    exists db, w', tr. split; [exact Hrun |]. split; [exact Htr | exact Hlen].
Defined.

(** * Further properties of the calibration *)

(** ** Range of the transformed precipitation factor *)

Lemma recip_times (x : Q) : x < 0 -> (1 - x) * (1 / (1 - x)) == 1.
Proof.
  intros H. unfold Qdiv. rewrite Qmult_1_l. apply Qmult_inv_r. lra.
Qed.

(** X1: over the bounds of the precipitation-factor prior, -2 to 2, the
    transformed factor ranges from 1/3 to 3, as the comment at the prior
    says. *)
Theorem prior_range_after_transformation (x : Q) :
  precfactor_boundlow <= x <= precfactor_boundhigh ->
  1 / 3 <= prec_transform x <= 3.
Proof.
  unfold precfactor_boundlow, precfactor_boundhigh. intros [Hlo Hhi].
  destruct (Qlt_le_dec x 0) as [H | H].
  - rewrite (prec_transform_neg x H).
    pose proof (recip_times x H) as Hm.
    pose proof (recip_pos x H) as Hp.
    pose proof (recip_lt1 x H) as Hl.
    remember (1 / (1 - x)) as r eqn:Hr. clear Hr.
    assert (H1 : 0 <= 3 - (1 - x)) by lra.
    assert (H2 : 0 <= r) by lra.
    pose proof (Qmult_le_0_compat _ _ H1 H2) as Hprod.
    assert (H3 : (3 - (1 - x)) * r == 3 * r - (1 - x) * r) by ring.
    rewrite H3, Hm in Hprod.
    split; [| lra].
    apply Qle_shift_div_r; [reflexivity |]. lra.
  - rewrite (prec_transform_nonneg x H).
    split; [apply Qle_shift_div_r; [reflexivity | lra] | lra].
Qed.

Lemma prior_range_after_transformation_witness :
  1 / 3 <= prec_transform (-2) <= 3.
Proof.
  apply prior_range_after_transformation.
  split; discriminate.
Defined.

(** X2: the transformation sends opposite raw values to reciprocal
    factors. *)
Theorem prec_transform_reciprocal (x : Q) :
  prec_transform x * prec_transform (- x) == 1.
Proof.
  destruct (Qlt_le_dec x 0) as [H | H].
  - rewrite (prec_transform_neg x H).
    rewrite (prec_transform_nonneg (- x)) by lra.
    pose proof (recip_times x H) as Hm.
    setoid_replace (- x + 1) with (1 - x) using relation Qeq by ring.
    rewrite Qmult_comm. exact Hm.
  - destruct (Qlt_le_dec 0 x) as [Hpos | Hzero].
    + rewrite (prec_transform_nonneg x H).
      rewrite (prec_transform_neg (- x)) by lra.
      pose proof (recip_times (- x) ltac:(lra)) as Hm.
      setoid_replace (x + 1) with (1 - - x) using relation Qeq by ring.
      exact Hm.
    + rewrite (prec_transform_nonneg x H).
      rewrite (prec_transform_nonneg (- x)) by lra.
      assert (Hx : x == 0) by lra.
      rewrite Hx. reflexivity.
Qed.

(** ** The window of the observation *)

Lemma slice_empty {A : Type} (a : list A) (i j : nat) :
  (j <= i)%nat \/ (length a <= i)%nat -> slice a i j = [].
Proof.
  unfold slice. intros [H | H].
  - replace (j - i)%nat with 0%nat by lia. reflexivity.
  - rewrite skipn_all2 by exact H. apply firstn_nil.
Qed.

(** X3: when the window of the observation is empty ([t2_idx <= t1_idx])
    or starts after the end of the series, and [t2] differs from [t1], the
    slice is empty and the modelled mass balance is 0; no exception is
    raised. *)
Theorem empty_window_gives_zero {C E : Type} (ext : externals C E)
    (input : pygem_input) (g : glacier C)
    (precfactor ddfsnow tempchange : option Q) (series : list Q) :
  runmassbalance ext
    [in_lrgcm input; in_lrglac input;
     prec_transform (default (in_precfactor input) precfactor);
     in_precgrad input; default (in_ddfsnow input) ddfsnow;
     in_ddfice input; in_tempsnow input;
     default (in_tempchange input) tempchange]
    (glacier_ctx g) = inr series ->
  ~ t2 g - t1 g == 0 ->
  (t2_idx g <= t1_idx g)%nat \/ (length series <= t1_idx g)%nat ->
  exists v : Q,
    massbal ext (modelparameters_of input) g precfactor ddfsnow tempchange
      = inr v
    /\ v == 0.
Proof.
  intros Hrun _ Hwin.
  rewrite massbal_forward_call, Hrun. simpl.
  eexists. split; [reflexivity |].
  rewrite (slice_empty series _ _ Hwin). simpl.
  unfold Qdiv. apply Qmult_0_l.
Qed.

Lemma empty_window_gives_zero_witness :
  exists v : Q,
    massbal Demo.ext (modelparameters_of Demo.input)
      {| glacier_str := "15.00004"; t1 := 2000; t2 := 2002; t1_idx := 7;
         t2_idx := 9; mb_mwe := 1; mb_mwe_err := 0.4;
         glacier_ctx := [0.5; 0.5; 0.25] |}
      (Some 0) None None = inr v
    /\ v == 0.
Proof.
  eapply (empty_window_gives_zero Demo.ext Demo.input _ (Some 0) None None).
  - vm_compute. reflexivity.
  - discriminate.
  - right. simpl. lia.
Defined.

(** ** The frame written for a glacier *)

Lemma existsb_set_column_false (cols : list (string * list cell))
    (n m : string) (v : list cell) :
  String.eqb n m = false ->
  existsb (fun c => String.eqb (fst c) m) cols = false ->
  existsb (fun c => String.eqb (fst c) m) (set_column cols n v) = false.
Proof.
  intros Hnm. induction cols as [| [k old] cols IH]; simpl.
  - intros _. now rewrite Hnm.
  - intros H. apply orb_false_iff in H as [Hk Hrest].
    destruct (String.eqb k n) eqn:Hkn; simpl.
    + apply String.eqb_eq in Hkn. subst k. now rewrite Hnm.
    + now rewrite Hk, IH.
Qed.

Lemma column_filter_same (cols : list (string * list cell)) (n : string) :
  column (List.filter (fun c => negb (String.eqb (fst c) n)) cols) n = None.
Proof.
  unfold column. induction cols as [| [k old] cols IH]; simpl; [reflexivity |].
  destruct (String.eqb k n) eqn:Hk; simpl; [exact IH |].
  now rewrite Hk.
Qed.

(** X4: a frame without the column 'sorted_index' makes [process_df] raise
    KeyError at the drop. *)
Theorem process_df_missing_sorted_index (input : pygem_input) (df : DataFrame) :
  has_column df "sorted_index" = false ->
  process_df input df = inl (KeyError "sorted_index").
Proof.
  intros Hcol. unfold process_df.
  set (d5 := df_setitem _ "tempsnow" _).
  assert (Hd5 : has_column d5 "sorted_index" = false).
  { unfold has_column, d5. cbn [df_setitem df_columns].
    repeat (apply existsb_set_column_false; [reflexivity |]). exact Hcol. }
  unfold df_drop. now rewrite Hd5.
Qed.

Lemma process_df_missing_sorted_index_witness :
  process_df Demo.input
    {| df_index := [Int 4]; df_index_name := None;
       df_columns := [("massbal"%string, [Float (-0.5)])];
       df_columns_name := None |}
  = inl (KeyError "sorted_index").
Proof.
  apply process_df_missing_sorted_index. reflexivity.
Defined.

(** X5: [process_df] carries every other column of the stratifier's frame
    over unchanged (the calibrated parameters and the mass balance), and
    the frame it returns has neither 'sorted_index' nor 'runs' among its
    columns. *)
Theorem process_df_keeps_calibrated_columns (input : pygem_input)
    (df df' : DataFrame) (c : string) :
  process_df input df = inr df' ->
  ~ In c ["lrgcm"; "lrglac"; "precgrad"; "ddfice"; "tempsnow";
          "sorted_index"; "runs"]%string ->
  column (df_columns df') c = column (df_columns df) c
  /\ column (df_columns df') "sorted_index" = None
  /\ column (df_columns df') "runs" = None.
Proof.
  intros Hrun Hc. unfold process_df in Hrun.
  rewrite !df_len_setitem in Hrun.
  set (d5 := df_setitem _ "tempsnow" _) in Hrun.
  unfold df_drop in Hrun.
  destruct (has_column d5 "sorted_index"); [| discriminate].
  cbn [rbind] in Hrun. unfold df_set_index, df_getitem in Hrun.
  cbn [df_setitem df_columns df_index df_index_name df_columns_name] in Hrun.
  rewrite column_set_same in Hrun. cbn [rbind] in Hrun.
  inversion Hrun; subst df'; clear Hrun.
  cbn [df_columns].
  assert (Hne : forall n : string,
             In n ["lrgcm"; "lrglac"; "precgrad"; "ddfice"; "tempsnow";
                   "sorted_index"; "runs"]%string ->
             String.eqb n c = false).
  { intros n Hn. apply String.eqb_neq. intros ->. contradiction. }
  split; [| split].
  - rewrite column_filter_other by (apply Hne; simpl; tauto).
    rewrite column_set_other by (apply Hne; simpl; tauto).
    rewrite column_filter_other by (apply Hne; simpl; tauto).
    unfold d5. cbn [df_setitem df_columns].
    now rewrite !column_set_other by (apply Hne; simpl; tauto).
  - rewrite column_filter_other by reflexivity.
    rewrite column_set_other by reflexivity.
    apply column_filter_same.
  - apply column_filter_same.
Qed.

Lemma process_df_keeps_calibrated_columns_witness :
  exists df' : DataFrame,
    process_df Demo.input Demo.frame0 = inr df'
    /\ column (df_columns df') "massbal"
       = Some [Float (-0.6); Float (-0.5); Float (-0.4)].
Proof.
  destruct (process_df Demo.input Demo.frame0) as [e | df'] eqn:Hrun;
    [discriminate Hrun |].
  exists df'. split; [reflexivity |].
  destruct (process_df_keeps_calibrated_columns Demo.input Demo.frame0 df'
              "massbal" Hrun) as (Hkeep & _ & _).
  - simpl. intros H. repeat (destruct H as [H | H]; [discriminate H |]).
    exact H.
  - rewrite Hkeep. reflexivity.
Defined.

(** ** The priors of the retry *)

(** X6: whatever the traces of the first fit, the bounds of the retry lie
    within the bounds of the first fit and are never empty: for each of the
    three parameters the lower bound is below the upper bound. *)
Theorem retry_bounds_not_empty {C : Type} (input : pygem_input)
    (g : glacier C) (tr : traces) :
  let a := shifted_args input g tr in
  (precfactor_boundlow <= boundlow (precfactor_spec a)
   /\ boundlow (precfactor_spec a) < boundhigh (precfactor_spec a)
   /\ boundhigh (precfactor_spec a) <= precfactor_boundhigh)
  /\ (tempchange_boundlow <= boundlow (tempchange_spec a)
      /\ boundlow (tempchange_spec a) < boundhigh (tempchange_spec a)
      /\ boundhigh (tempchange_spec a) <= tempchange_boundhigh)
  /\ (boundlow (ddfsnow_spec a) = ddfsnow_boundlow
      /\ boundlow (ddfsnow_spec a) < boundhigh (ddfsnow_spec a)
      /\ boundhigh (ddfsnow_spec a) = ddfsnow_boundhigh).
Proof.
  unfold shifted_args. cbv zeta.
  destruct (too_positive g (tr_massbal tr)); cbn;
    repeat split; try reflexivity; try discriminate.
Qed.

(** ** Output files of a batch *)

Lemma keeps_files_eq {E A : Type} (m : M E A) (w w' : world E) (r : result A) :
  keeps_files m -> m w = (r, w') -> w_files w' = w_files w.
Proof. intros Hm H. specialize (Hm w). now rewrite H in Hm. Qed.

(** A pass that returns has written the file of its glacier and no
    other. *)
Lemma calibrate_glacier_files {C E : Type} (ext : externals C E)
    (input : pygem_input) (g : glacier C) (w w' : world E) :
  calibrate_glacier ext input g w = (inr tt, w') ->
  exists df : DataFrame,
    w_files w' = <[glacier_str g +:+ ".nc" := df]> (w_files w).
Proof.
  unfold calibrate_glacier. intros H.
  apply bind_inr in H as (tr & w1 & H1 & H).
  apply (keeps_files_eq _ _ _ _ (keeps_files_fit_first ext input g)) in H1.
  apply bind_inr in H as (tr' & w2 & H2 & H).
  apply (keeps_files_eq _ _ _ _ (keeps_files_adjust_priors ext input g tr))
    in H2.
  unfold export_ensemble in H.
  apply bind_inr in H as (sampling & w3 & H3 & H).
  apply (keeps_files_eq _ _ _ _ (keeps_files_call _)) in H3.
  apply bind_inr in H as (col & w4 & H4 & H).
  apply (keeps_files_eq _ _ _ _ (keeps_files_lift _)) in H4.
  apply bind_inr in H as ([] & w5 & H5 & H).
  apply (keeps_files_eq _ _ _ _ (keeps_files_emit _)) in H5.
  apply bind_inr in H as ([] & w6 & H6 & H).
  assert (F6 : w_files w6 = w_files w5).
  { revert H6. apply keeps_files_eq. keeps_files_auto. }
  apply bind_inr in H as (df & w7 & H7 & H).
  apply (keeps_files_eq _ _ _ _ (keeps_files_lift _)) in H7.
  exists df. unfold to_netcdf in H. inversion H. simpl. congruence.
Qed.

(** X7: a batch that [main] completes has a file for each of its glaciers,
    named by the glacier, and every file of the output directory that does
    not bear the name of a glacier of the batch is left as it was. *)
Theorem batch_writes_only_its_files {C E : Type} (ext : externals C E)
    (input : pygem_input) (gs : list (glacier C)) (w w' : world E) :
  glacier_loop ext input gs w = (inr tt, w') ->
  (forall g : glacier C,
      In g gs -> is_Some (w_files w' !! (glacier_str g +:+ ".nc")))
  /\ (forall name : string,
        (forall g : glacier C, In g gs -> name <> glacier_str g +:+ ".nc") ->
        w_files w' !! name = w_files w !! name).
Proof.
  intros Hloop. split.
  - exact (glacier_loop_persisted ext input gs w w' Hloop).
  - revert w Hloop. induction gs as [| g gs IH]; intros w Hloop name Hname.
    + simpl in Hloop. now inversion Hloop.
    + simpl in Hloop. apply bind_inr in Hloop as ([] & w1 & Hg & Hrest).
      rewrite (IH w1 Hrest name) by (intros g0 Hin; apply Hname; now right).
      destruct (calibrate_glacier_files ext input g w w1 Hg) as (df & ->).
      apply lookup_insert_ne. intros Heq. apply (Hname g); [now left |].
      now symmetry.
Qed.

Lemma batch_writes_only_its_files_witness :
  exists w' : world unit,
    glacier_loop Demo.ext Demo.input [Demo.glacier_near] Demo.world0
      = (inr tt, w')
    /\ is_Some (w_files w' !! "15.00001.nc"%string)
    /\ w_files w' !! "15.00002.nc"%string = None.
Proof.
  eexists. split; [vm_compute; reflexivity |].
  edestruct (batch_writes_only_its_files Demo.ext Demo.input
               [Demo.glacier_near] Demo.world0) as [Hown Hother].
  - vm_compute. reflexivity.
  - split.
    + apply (Hown Demo.glacier_near). now left.
    + rewrite (Hother "15.00002.nc"%string); [reflexivity |].
      intros g [<- | []]. discriminate.
Defined.

(** * Entry points of the two scripts *)

(** ** Ceiling division and ranges *)

Lemma ceil_div_spec (a b : Z) :
  (0 < b)%Z -> (a <= b * ceil_div a b < a + b)%Z.
Proof.
  intros Hb. unfold ceil_div.
  pose proof (Z.div_mod (- a) b ltac:(lia)) as Hdm.
  pose proof (Z.mod_pos_bound (- a) b Hb) as Hmod.
  lia.
Qed.

Lemma ceil_div_1 (a : Z) : ceil_div a 1 = a.
Proof. unfold ceil_div. rewrite Z.div_1_r. lia. Qed.

Lemma py_range_from_0 (stop step : Z) :
  (0 < step)%Z ->
  py_range 0 stop step
  = inr (List.map (fun i => (Z.of_nat i * step)%Z)
           (seq 0 (Z.to_nat (ceil_div stop step)))).
Proof.
  intros Hs. unfold py_range, range_length.
  destruct (Z.eqb_spec step 0) as [-> | _]; [lia |].
  destruct (Z.ltb_spec 0 step) as [_ | H]; [| lia].
  now rewrite Z.sub_0_r.
Qed.

(** ** Slices *)

Lemma slice_clamp {A : Type} (a : list A) (i j : nat) :
  slice a (Nat.min i (length a)) (Nat.min j (length a)) = slice a i j.
Proof.
  unfold slice.
  destruct (Nat.le_gt_cases (length a) i) as [Hi | Hi].
  - rewrite (Nat.min_r i) by exact Hi.
    rewrite skipn_all, (skipn_all2 a Hi). now rewrite !firstn_nil.
  - rewrite (Nat.min_l i) by lia.
    destruct (Nat.le_gt_cases (length a) j) as [Hj | Hj].
    + rewrite (Nat.min_r j) by exact Hj.
      rewrite !firstn_all2; [reflexivity | |]; rewrite length_skipn; lia.
    + now rewrite (Nat.min_l j) by lia.
Qed.

Lemma py_slice_nonneg {A : Type} (a : list A) (i j : nat) :
  py_slice a (Z.of_nat i) (Z.of_nat j) = slice a i j.
Proof.
  unfold py_slice, slice_index.
  destruct (Z.ltb_spec (Z.of_nat i) 0) as [H | _]; [lia |].
  destruct (Z.ltb_spec (Z.of_nat j) 0) as [H | _]; [lia |].
  rewrite <- !Nat2Z.inj_min, !Nat2Z.id. apply slice_clamp.
Qed.

(** Consecutive slices of width [c] make up the front of the list. *)
Lemma concat_slices {A : Type} (a : list A) (c k : nat) :
  concat (List.map (fun i => slice a (i * c) (i * c + c)) (seq 0 k))
  = firstn (k * c) a.
Proof.
  induction k as [| k IH]; [reflexivity |].
  rewrite seq_S, List.map_app, concat_app, IH. simpl.
  rewrite app_nil_r. unfold slice.
  replace (k * c + c - k * c)%nat with c by lia.
  replace (c + k * c)%nat with (k * c + c)%nat by lia.
  apply take_take_drop.
Qed.

Lemma slice_length {A : Type} (a : list A) (i j : nat) :
  length (slice a i j) = Nat.min (j - i) (length a - i).
Proof. unfold slice. now rewrite length_firstn, length_skipn. Qed.

(** ** Chunks of the glacier table *)

(** The slices [chunk : chunk + c] at the multiples of a positive [c]
    below the length of the table are non-empty and make up the table. *)
Lemma chunk_rows {A : Type} (rgi : list A) (c : Z) :
  (0 < c)%Z ->
  let k := Z.to_nat (ceil_div (Z.of_nat (length rgi)) c) in
  let parts :=
    List.map (fun chunk => py_slice rgi chunk (chunk + c))
      (List.map (fun i => (Z.of_nat i * c)%Z) (seq 0 k)) in
  concat parts = rgi
  /\ Forall (fun part => part <> []) parts
  /\ length parts = k.
Proof.
  intros Hc k parts.
  pose proof (ceil_div_spec (Z.of_nat (length rgi)) c Hc) as Hspec.
  set (cn := Z.to_nat c).
  assert (Hcn : c = Z.of_nat cn) by (unfold cn; lia).
  assert (Hk : Z.of_nat k = ceil_div (Z.of_nat (length rgi)) c).
  { unfold k. rewrite Z2Nat.id; [reflexivity | nia]. }
  assert (Hparts : parts
            = List.map (fun i => slice rgi (i * cn) (i * cn + cn)) (seq 0 k)).
  { unfold parts. rewrite List.map_map. apply List.map_ext. intros i.
    rewrite Hcn, <- Nat2Z.inj_mul, <- Nat2Z.inj_add.
    apply py_slice_nonneg. }
  rewrite Hparts. split; [| split].
  - rewrite concat_slices. apply firstn_all2. nia.
  - apply List.Forall_forall. intros part Hin.
    apply in_map_iff in Hin as (i & <- & Hi).
    apply in_seq in Hi.
    intros Hnil. apply (f_equal (@length A)) in Hnil.
    rewrite slice_length in Hnil. simpl in Hnil. nia.
  - now rewrite length_map, length_seq.
Qed.

(** With the whole table as chunk size there is one chunk, the table. *)
Lemma whole_table_chunk {A : Type} (rgi : list A) :
  rgi <> [] ->
  List.map (fun chunk => py_slice rgi chunk (chunk + Z.of_nat (length rgi)))
    (List.map (fun i => (Z.of_nat i * Z.of_nat (length rgi))%Z)
       (seq 0 (Z.to_nat (ceil_div (Z.of_nat (length rgi))
                           (Z.of_nat (length rgi))))))
  = [rgi].
Proof.
  intros Hne.
  assert (HN : (0 < Z.of_nat (length rgi))%Z).
  { destruct rgi; [contradiction | simpl; lia]. }
  assert (Hone : ceil_div (Z.of_nat (length rgi)) (Z.of_nat (length rgi)) = 1%Z).
  { pose proof (ceil_div_spec (Z.of_nat (length rgi)) _ HN). nia. }
  rewrite Hone. change (Z.to_nat 1) with 1%nat. cbn [seq List.map].
  rewrite <- Nat2Z.inj_mul, <- Nat2Z.inj_add, py_slice_nonneg.
  unfold slice. simpl. rewrite Nat.sub_0_r. now rewrite firstn_all.
Qed.

Lemma calibration_rows_of_pack {A : Type} (rgi : list A) (gcm_name : string)
    (chunk_size n : Z) (chunks : list Z) :
  collect CalibrationEntry.rows_of
    (CalibrationEntry.pack_loop rgi gcm_name chunk_size n chunks)
  = inr (List.map (fun chunk => py_slice rgi chunk (chunk + chunk_size)) chunks).
Proof.
  revert n. induction chunks as [| chunk rest IH]; intros n; [reflexivity |].
  cbn [CalibrationEntry.pack_loop collect List.map].
  rewrite IH. reflexivity.
Qed.

Lemma simulation_rows_of_pack {A : Type} (rgi : list A) (gcm_name : string)
    (chunk_size n : Z) (chunks : list Z) :
  collect SimulationEntry.rows_of
    (SimulationEntry.pack_loop rgi gcm_name chunk_size n chunks)
  = inr (List.map (fun chunk => py_slice rgi chunk (chunk + chunk_size)) chunks).
Proof.
  revert n. induction chunks as [| chunk rest IH]; intros n; [reflexivity |].
  cbn [SimulationEntry.pack_loop collect List.map].
  rewrite IH. reflexivity.
Qed.

(** X8: for a glacier table that is not empty, and one process at least
    when parallel runs are asked for, the calls of [main] of the
    calibration get non-empty slices of the table that, put end to end in
    the order of the calls, are the table: every glacier is in exactly one
    batch.  In a parallel run there are at most as many batches as
    processes; otherwise there is one batch. *)
Theorem calibration_batches_partition {A : Type} (rgi : list A)
    (gcm_name : string) (option_parallels num_simultaneous_processes : Z) :
  rgi <> [] ->
  (option_parallels = 0 \/ 1 <= num_simultaneous_processes)%Z ->
  exists parts : list (list A),
    CalibrationEntry.batches option_parallels num_simultaneous_processes
      rgi gcm_name = inr parts
    /\ concat parts = rgi
    /\ Forall (fun part => part <> []) parts
    /\ (option_parallels <> 0 ->
        2 * num_simultaneous_processes <= Z.of_nat (length rgi) ->
        Z.of_nat (length parts) <= num_simultaneous_processes)%Z
    /\ (option_parallels = 0
        \/ Z.of_nat (length rgi) < 2 * num_simultaneous_processes ->
        parts = [rgi])%Z.
Proof.
  intros Hne Hpar.
  assert (HN : (0 < Z.of_nat (length rgi))%Z).
  { destruct rgi; [contradiction | simpl; lia]. }
  unfold CalibrationEntry.batches, CalibrationEntry.chunk_size_of.
  destruct (Z.eqb_spec option_parallels 0) as [Hop | Hop];
    destruct (Z.leb_spec (2 * num_simultaneous_processes)
                (Z.of_nat (length rgi))) as [Hbig | Hsmall];
    cbn [negb andb].
  3: { (* parallel, enough glaciers *)
    destruct (Z.eqb_spec num_simultaneous_processes 0) as [H0 | _]; [lia |].
    assert (HP : (0 < num_simultaneous_processes)%Z) by lia.
    pose proof (ceil_div_spec (Z.of_nat (length rgi))
                  num_simultaneous_processes HP) as Hcs.
    set (cs := ceil_div (Z.of_nat (length rgi)) num_simultaneous_processes)
      in *.
    assert (Hcs0 : (0 < cs)%Z) by nia.
    cbn [rbind]. unfold CalibrationEntry.pack.
    rewrite (py_range_from_0 _ _ Hcs0). cbn [rbind].
    rewrite calibration_rows_of_pack.
    destruct (chunk_rows rgi cs Hcs0) as (Hcat & Hall & Hlen).
    eexists. split; [reflexivity |].
    split; [exact Hcat |]. split; [exact Hall |].
    split; [| intros [H | H]; lia].
    intros _ _. rewrite Hlen.
    pose proof (ceil_div_spec (Z.of_nat (length rgi)) cs Hcs0) as Hk.
    rewrite Z2Nat.id by nia. nia. }
  all: cbn [rbind]; unfold CalibrationEntry.pack;
    rewrite (py_range_from_0 _ _ HN); cbn [rbind];
    rewrite calibration_rows_of_pack, (whole_table_chunk rgi Hne);
    exists [rgi];
    (split; [reflexivity |]);
    (split; [simpl; apply app_nil_r |]);
    (split; [constructor; [exact Hne | constructor] |]);
    (split; [intros; lia | reflexivity]).
Qed.

Lemma calibration_batches_partition_witness :
  exists parts : list (list nat),
    CalibrationEntry.batches 1 4 [1; 2; 3; 4; 5; 6; 7; 8; 9; 10]%nat
      "ERA-Interim" = inr parts
    /\ concat parts = [1; 2; 3; 4; 5; 6; 7; 8; 9; 10]%nat
    /\ (Z.of_nat (length parts) <= 4)%Z.
Proof.
  destruct (calibration_batches_partition [1; 2; 3; 4; 5; 6; 7; 8; 9; 10]%nat
              "ERA-Interim" 1 4) as (parts & Hrun & Hcat & _ & Hlen & _).
  - discriminate.
  - right. lia.
  - exists parts. split; [exact Hrun |]. split; [exact Hcat |].
    apply Hlen; [discriminate | simpl; lia].
Defined.

(** X9: the calibration started on an empty glacier table raises
    ValueError when it packs the variables: the chunk size is 0 and
    [range] refuses a zero step. *)
Theorem calibration_empty_table {A : Type} (gcm_name : string)
    (option_parallels num_simultaneous_processes : Z) :
  (option_parallels = 0 \/ 1 <= num_simultaneous_processes)%Z ->
  CalibrationEntry.batches (A := A) option_parallels
    num_simultaneous_processes [] gcm_name
  = inl (Raised "ValueError").
Proof.
  intros Hpar.
  unfold CalibrationEntry.batches, CalibrationEntry.chunk_size_of.
  cbn [length]. change (Z.of_nat 0) with 0%Z.
  destruct (Z.eqb_spec option_parallels 0) as [Hop | Hop];
    destruct (Z.leb_spec (2 * num_simultaneous_processes) 0) as [Hbig | Hsmall];
    cbn [negb andb]; try reflexivity.
  exfalso. lia.
Qed.

Lemma calibration_empty_table_witness :
  CalibrationEntry.batches (A := nat) 1 4 [] "ERA-Interim"
  = inl (Raised "ValueError").
Proof.
  apply calibration_empty_table. right. lia.
Defined.

(** X10: for a glacier table that is not empty, and one process at least
    when parallel runs are asked for, the calls of [main] of the
    simulation get non-empty slices of the table that, put end to end in
    the order of the calls, are the table.  In a parallel run there are at
    most as many batches as processes and as glaciers; otherwise there is
    one batch. *)
Theorem simulation_batches_partition {A : Type} (rgi : list A)
    (gcm_name : string) (option_parallels num_simultaneous_processes : Z) :
  rgi <> [] ->
  (option_parallels = 0 \/ 1 <= num_simultaneous_processes)%Z ->
  exists parts : list (list A),
    SimulationEntry.batches option_parallels num_simultaneous_processes
      rgi gcm_name = inr parts
    /\ concat parts = rgi
    /\ Forall (fun part => part <> []) parts
    /\ (option_parallels <> 0 ->
        Z.of_nat (length parts)
        <= Z.min (Z.of_nat (length rgi)) num_simultaneous_processes)%Z
    /\ (option_parallels = 0%Z -> parts = [rgi]).
Proof.
  intros Hne Hpar.
  assert (HN : (0 < Z.of_nat (length rgi))%Z).
  { destruct rgi; [contradiction | simpl; lia]. }
  unfold SimulationEntry.batches, SimulationEntry.chunk_size_of.
  destruct (Z.eqb_spec option_parallels 0) as [Hop | Hop]; cbn [negb].
  - cbn [rbind]. unfold SimulationEntry.pack.
    rewrite (py_range_from_0 _ _ HN). cbn [rbind].
    rewrite simulation_rows_of_pack, (whole_table_chunk rgi Hne).
    exists [rgi].
    split; [reflexivity |].
    split; [simpl; apply app_nil_r |].
    split; [constructor; [exact Hne | constructor] |].
    split; [intros; lia | reflexivity].
  - set (nc := Z.min (Z.of_nat (length rgi)) num_simultaneous_processes).
    assert (Hnc : (0 < nc)%Z) by (unfold nc; lia).
    destruct (Z.eqb_spec nc 0) as [H0 | _]; [lia |].
    pose proof (ceil_div_spec (Z.of_nat (length rgi)) nc Hnc) as Hcs.
    set (cs := ceil_div (Z.of_nat (length rgi)) nc) in *.
    assert (Hcs0 : (0 < cs)%Z) by nia.
    cbn [rbind]. unfold SimulationEntry.pack.
    rewrite (py_range_from_0 _ _ Hcs0). cbn [rbind].
    rewrite simulation_rows_of_pack.
    destruct (chunk_rows rgi cs Hcs0) as (Hcat & Hall & Hlen).
    eexists. split; [reflexivity |].
    split; [exact Hcat |]. split; [exact Hall |].
    split; [| intros H; contradiction].
    intros _. rewrite Hlen.
    pose proof (ceil_div_spec (Z.of_nat (length rgi)) cs Hcs0) as Hk.
    rewrite Z2Nat.id by nia. nia.
Qed.

Lemma simulation_batches_partition_witness :
  exists parts : list (list nat),
    SimulationEntry.batches 1 4 [1; 2; 3]%nat "ERA-Interim" = inr parts
    /\ concat parts = [1; 2; 3]%nat
    /\ (Z.of_nat (length parts) <= 3)%Z.
Proof.
  destruct (simulation_batches_partition [1; 2; 3]%nat "ERA-Interim" 1 4)
    as (parts & Hrun & Hcat & _ & Hlen & _).
  - discriminate.
  - right. lia.
  - exists parts. split; [exact Hrun |]. split; [exact Hcat |].
    apply Hlen. discriminate.
Defined.

(** X11: the simulation started on an empty glacier table raises: in a
    parallel run the number of cores is 0 and the chunk size divides by
    it (ZeroDivisionError); otherwise the chunk size is 0 and [range]
    refuses it (ValueError). *)
Theorem simulation_empty_table {A : Type} (gcm_name : string)
    (option_parallels num_simultaneous_processes : Z) :
  (0 <= num_simultaneous_processes)%Z ->
  SimulationEntry.batches (A := A) option_parallels
    num_simultaneous_processes [] gcm_name
  = inl (if (option_parallels =? 0)%Z then Raised "ValueError"
         else ZeroDivisionError).
Proof.
  intros HP.
  unfold SimulationEntry.batches, SimulationEntry.chunk_size_of.
  cbn [length]. change (Z.of_nat 0) with 0%Z.
  destruct (Z.eqb_spec option_parallels 0) as [Hop | Hop]; cbn [negb];
    [reflexivity |].
  rewrite Z.min_l by exact HP. reflexivity.
Qed.

Lemma simulation_empty_table_witness :
  SimulationEntry.batches (A := nat) 1 4 [] "ERA-Interim"
  = inl ZeroDivisionError.
Proof.
  apply (simulation_empty_table (A := nat) "ERA-Interim" 1 4). lia.
Defined.

(** * The glacier loop of the simulation *)

(** ** Variables of the statistics *)

Lemma remove_each_prefix (n : nat) (l : list string) :
  Simulation.remove_each (firstn n l) l = inr (skipn n l).
Proof.
  revert l. induction n as [| n IH]; intros l; [reflexivity |].
  destruct l as [| x l]; [reflexivity |].
  cbn [firstn skipn Simulation.remove_each Simulation.list_remove].
  rewrite String.eqb_refl. cbn [rbind]. apply IH.
Qed.

(** X12: the loop that removes the first eight variable names one by one
    leaves the list from its ninth element on, whatever the names are,
    repeated ones too, and never raises; with eight variables or fewer
    nothing is left. *)
Theorem statistics_variables_drop_eight (variables : list string) :
  Simulation.statistics_variables variables = inr (skipn 8 variables)
  /\ ((length variables <= 8)%nat ->
      Simulation.statistics_variables variables = inr []).
Proof.
  assert (H : Simulation.statistics_variables variables
              = inr (skipn 8 variables)).
  { unfold Simulation.statistics_variables, slice.
    rewrite Nat.sub_0_r. cbn [skipn]. apply remove_each_prefix. }
  split; [exact H |].
  intros Hlen. rewrite H. now rewrite skipn_all2.
Qed.

Lemma statistics_variables_drop_eight_witness :
  Simulation.statistics_variables
    ["a"; "b"; "c"; "d"; "e"; "f"; "g"; "h"]%string = inr [].
Proof.
  apply (statistics_variables_drop_eight
           ["a"; "b"; "c"; "d"; "e"; "f"; "g"; "h"]%string).
  simpl. lia.
Defined.

(** ** The mean annual mass balance *)

Lemma Qsum_app (a b : list Q) : Qsum (a ++ b) == Qsum a + Qsum b.
Proof.
  induction a as [| x a IH]; simpl; [lra |]. rewrite IH. lra.
Qed.

Lemma Qsum_rows12 (k : nat) (a : list Q) :
  Qsum (List.map Qsum (Simulation.rows12 k a)) == Qsum (firstn (k * 12) a).
Proof.
  revert a. induction k as [| k IH]; intros a; [reflexivity |].
  cbn [Simulation.rows12 List.map]. simpl Qsum at 1. rewrite IH.
  replace (S k * 12)%nat with (12 + k * 12)%nat by lia.
  rewrite <- (take_take_drop a 12 (k * 12)), Qsum_app. reflexivity.
Qed.

Lemma rows12_length (k : nat) (a : list Q) :
  length (Simulation.rows12 k a) = k.
Proof.
  revert a. induction k as [| k IH]; intros a; [reflexivity |].
  simpl. now rewrite IH.
Qed.

(** X13: for a monthly series of [years] whole years, at least one, the
    mean annual mass balance is the sum of the series divided by the
    number of years; a series whose length is no multiple of 12 raises
    ValueError at the reshape. *)
Theorem mb_mwea_total_over_years (series : list Q) :
  (forall years : nat,
      (0 < years)%nat ->
      length series = (years * 12)%nat ->
      exists v : Q,
        Simulation.mb_mwea series = inr (Some v)
        /\ v == Qsum series / inject_Z (Z.of_nat years))
  /\ ((length series mod 12 <> 0)%nat ->
      Simulation.mb_mwea series = inl (Raised "ValueError")).
Proof.
  split.
  - intros years Hy Hlen.
    unfold Simulation.mb_mwea, Simulation.reshape12.
    rewrite Hlen, Nat.Div0.mod_mul, Nat.div_mul by lia. cbn [Nat.eqb rbind].
    unfold np_mean.
    destruct (List.map Qsum (Simulation.rows12 years series)) as [| x rest] eqn:Hrows.
    + apply (f_equal (@length Q)) in Hrows.
      rewrite length_map, rows12_length in Hrows. simpl in Hrows. lia.
    + eexists. split; [reflexivity |].
      rewrite <- Hrows, length_map, rows12_length, Qsum_rows12.
      rewrite firstn_all2 by lia. reflexivity.
  - intros Hmod. unfold Simulation.mb_mwea, Simulation.reshape12.
    destruct (Nat.eqb_spec (length series mod 12) 0) as [H | _];
      [contradiction | reflexivity].
Qed.

Lemma mb_mwea_total_over_years_witness :
  exists v : Q,
    Simulation.mb_mwea
      [1; 1; 1; 1; 1; 1; 1; 1; 1; 1; 1; 1; 2; 2; 2; 2; 2; 2; 2; 2; 2; 2; 2; 2]
    = inr (Some v)
    /\ v == 18.
Proof.
  destruct (mb_mwea_total_over_years
              [1; 1; 1; 1; 1; 1; 1; 1; 1; 1; 1; 1;
               2; 2; 2; 2; 2; 2; 2; 2; 2; 2; 2; 2]) as [Hmean _].
  destruct (Hmean 2%nat) as (v & Hv & Heq); [lia | reflexivity |].
  exists v. split; [exact Hv |]. rewrite Heq. reflexivity.
Defined.

(** ** Parameter sets of the ensemble *)

Lemma collect_map {A B : Type} (f : A -> result B) (g : A -> B) (l : list A) :
  (forall x : A, In x l -> f x = inr (g x)) ->
  collect f l = inr (List.map g l).
Proof.
  induction l as [| x l IH]; intros H; [reflexivity |].
  cbn [collect List.map]. rewrite (H x) by now left.
  cbn [rbind]. rewrite IH by (intros y Hy; apply H; now right).
  reflexivity.
Qed.

Lemma py_index_map_seq {B : Type} (h : nat -> B) (k i : nat) :
  (i < k)%nat -> py_index (List.map h (seq 0 k)) i = inr (h i).
Proof.
  intros Hi. unfold py_index.
  assert (H : List.map h (seq 0 k) !! i = Some (h i)).
  { change (List.map h (seq 0 k)) with (h <$> seq 0 k).
    rewrite list_lookup_fmap, lookup_seq_lt by exact Hi. reflexivity. }
  now rewrite H.
Qed.

Lemma position_nonneg (n : nat) (i : Z) :
  (0 <= i < Z.of_nat n)%Z -> Simulation.position n i = inr (Z.to_nat i).
Proof.
  intros [H0 Hn]. unfold Simulation.position.
  destruct (Z.leb_spec 0 i) as [_ | H]; [| lia].
  destruct (Z.ltb_spec i (Z.of_nat n)) as [_ | H]; [reflexivity | lia].
Qed.

(** X14: with calibration option 2, more than one parameter set, two
    iterations or more, a burn-in that is not negative and at least as
    many sets after the burn-in as iterations, the loop runs the mass
    balance with [sim_iters] rows of the parameter table that lie after the
    burn-in and inside the table, at the constant spacing
    int((n - burn) / sim_iters), starting less than one spacing after the
    burn-in, whatever the shuffle picks. *)
Theorem parameter_sets_in_range (shuffle : list Z -> list Z) (n_sets : nat)
    (sim_iters sim_burn : Z) :
  (forall l : list Z, Permutation (shuffle l) l) ->
  n_sets <> 1%nat ->
  (2 <= sim_iters)%Z ->
  (0 <= sim_burn)%Z ->
  (sim_burn + sim_iters <= Z.of_nat n_sets)%Z ->
  exists start spacing : Z,
    spacing = ((Z.of_nat n_sets - sim_burn) ÷ sim_iters)%Z
    /\ (1 <= spacing)%Z
    /\ (sim_burn <= start < sim_burn + spacing)%Z
    /\ (start + (sim_iters - 1) * spacing < Z.of_nat n_sets)%Z
    /\ Simulation.parameter_sets shuffle 2 n_sets sim_iters sim_burn
       = inr (List.map
                (fun i => Simulation.Row (Z.to_nat (start + Z.of_nat i * spacing)))
                (seq 0 (Z.to_nat sim_iters))).
Proof.
  intros Hperm Hn Hit Hburn Hfit.
  set (N := Z.of_nat n_sets) in *.
  set (s := ((N - sim_burn) ÷ sim_iters)%Z).
  assert (Hs : (sim_iters * s <= N - sim_burn)%Z /\ (1 <= s)%Z).
  { unfold s. rewrite Z.quot_div_nonneg by lia.
    pose proof (Z.div_mod (N - sim_burn) sim_iters ltac:(lia)) as Hdm.
    pose proof (Z.mod_pos_bound (N - sim_burn) sim_iters ltac:(lia)) as Hmod.
    split; [lia |].
    apply Z.div_le_lower_bound; lia. }
  destruct Hs as [Hs1 Hs2].
  unfold Simulation.parameter_sets.
  destruct (Nat.eqb_spec n_sets 1) as [H | _]; [contradiction |].
  change (2 =? 1)%Z with false. change (2 =? 2)%Z with true. cbn [orb].
  destruct (Z.eqb_spec sim_iters 0) as [H | _]; [lia |].
  destruct (Z.eqb_spec sim_iters 1) as [H | _]; [lia |].
  fold N. fold s.
  unfold Simulation.np_arange at 1. change (1 =? 0)%Z with false.
  rewrite ceil_div_1.
  replace (sim_burn + s - sim_burn)%Z with s by lia.
  cbn [rbind].
  set (L := List.map (fun i => (sim_burn + Z.of_nat i * 1)%Z)
              (seq 0 (Z.to_nat s))).
  assert (HL : exists start rest, shuffle L = start :: rest /\ In start L).
  { pose proof (Hperm L) as HP.
    destruct (shuffle L) as [| start rest] eqn:Hsh.
    - apply Permutation_nil in HP.
      apply (f_equal (@length Z)) in HP. unfold L in HP.
      rewrite length_map, length_seq in HP. simpl in HP. lia.
    - exists start, rest. split; [reflexivity |].
      apply (Permutation_in start HP). now left. }
  destruct HL as (start & rest & Hsh & Hin).
  rewrite Hsh. cbn [py_index lookup list_lookup rbind].
  apply in_map_iff in Hin as (i0 & Hstart & Hi0). apply in_seq in Hi0.
  assert (Hstart' : (sim_burn <= start < sim_burn + s)%Z) by lia.
  assert (Hlast : (start + (sim_iters - 1) * s < N)%Z) by nia.
  unfold Simulation.np_arange.
  destruct (Z.eqb_spec s 0) as [H | _]; [lia |].
  cbn [rbind].
  pose proof (ceil_div_spec (N - start) s ltac:(lia)) as Hc.
  set (K := Z.to_nat (ceil_div (N - start) s)).
  assert (HK : (sim_iters <= Z.of_nat K)%Z).
  { unfold K. rewrite Z2Nat.id by nia. nia. }
  rewrite (py_range_from_0 sim_iters 1 ltac:(lia)), ceil_div_1.
  cbn [rbind].
  exists start, s.
  split; [reflexivity |]. split; [exact Hs2 |].
  split; [exact Hstart' |]. split; [exact Hlast |].
  rewrite (collect_map _
             (fun n_iter => Simulation.Row (Z.to_nat (start + n_iter * s)))).
  - rewrite List.map_map. f_equal. apply List.map_ext.
    intros i. now rewrite Z.mul_1_r.
  - intros n_iter Hiter.
    apply in_map_iff in Hiter as (i & <- & Hi). apply in_seq in Hi.
    rewrite Z.mul_1_r.
    unfold Simulation.array_getitem.
    rewrite length_map, length_seq.
    rewrite position_nonneg by lia. cbn [rbind].
    rewrite Nat2Z.id, py_index_map_seq by lia. cbn [rbind].
    rewrite position_nonneg by nia. reflexivity.
Qed.

Lemma parameter_sets_in_range_witness :
  exists start spacing : Z,
    (10 <= start < 10 + spacing)%Z
    /\ Simulation.parameter_sets (@rev Z) 2 100 5 10
       = inr (List.map
                (fun i => Simulation.Row (Z.to_nat (start + Z.of_nat i * spacing)))
                (seq 0 5)).
Proof.
  destruct (parameter_sets_in_range (@rev Z) 100 5 10)
    as (start & spacing & _ & _ & Hstart & _ & Hrun).
  - intros l. symmetry. apply Permutation_rev.
  - discriminate.
  - lia.
  - lia.
  - simpl. lia.
  - exists start, spacing. split; [exact Hstart | exact Hrun].
Defined.

(** X15: with calibration option 2, more than one parameter set and fewer
    sets after the burn-in than iterations, the spacing is not positive,
    there is no start index to pick, and the loop is never entered:
    IndexError. *)
Theorem parameter_sets_too_few (shuffle : list Z -> list Z) (n_sets : nat)
    (sim_iters sim_burn : Z) :
  (forall l : list Z, Permutation (shuffle l) l) ->
  n_sets <> 1%nat ->
  (1 <= sim_iters)%Z ->
  (Z.of_nat n_sets - sim_burn < sim_iters)%Z ->
  Simulation.parameter_sets shuffle 2 n_sets sim_iters sim_burn
  = inl IndexError.
Proof.
  intros Hperm Hn Hit Hfew.
  set (N := Z.of_nat n_sets) in *.
  set (s := ((N - sim_burn) ÷ sim_iters)%Z).
  assert (Hs : (s <= 0)%Z).
  { unfold s. destruct (Z.le_gt_cases 0 (N - sim_burn)) as [Hpos | Hneg].
    - rewrite Z.quot_small by lia. lia.
    - replace (N - sim_burn)%Z with (- (sim_burn - N))%Z by lia.
      rewrite Z.quot_opp_l by lia.
      pose proof (Z.quot_pos (sim_burn - N) sim_iters ltac:(lia) ltac:(lia)).
      lia. }
  unfold Simulation.parameter_sets.
  destruct (Nat.eqb_spec n_sets 1) as [H | _]; [contradiction |].
  change (2 =? 1)%Z with false. change (2 =? 2)%Z with true. cbn [orb].
  destruct (Z.eqb_spec sim_iters 0) as [H | _]; [lia |].
  fold N. fold s.
  unfold Simulation.np_arange at 1. change (1 =? 0)%Z with false.
  rewrite ceil_div_1.
  replace (sim_burn + s - sim_burn)%Z with s by lia.
  replace (Z.to_nat s) with 0%nat by lia.
  cbn [seq List.map rbind].
  pose proof (Hperm []) as HP.
  apply Permutation_sym, Permutation_nil in HP.
  rewrite HP. reflexivity.
Qed.

Lemma parameter_sets_too_few_witness :
  Simulation.parameter_sets (@rev Z) 2 100 5 97 = inl IndexError.
Proof.
  apply parameter_sets_too_few.
  - intros l. symmetry. apply Permutation_rev.
  - discriminate.
  - lia.
  - simpl. lia.
Defined.

(** * The ensemble written for a glacier *)

(** X16: once the stratifier has returned a frame with a 'massbal' column
    that [process_df] accepts, the ensemble is written under the name of
    the glacier whether or not its mean mass balance is within 0.1 of the
    observation; the summary line is printed, and the line 'still outside
    bounds' is printed exactly when the mean differs from the observation
    by more than 0.1. *)
Theorem ensemble_written_even_outside_tolerance {C E : Type}
    (ext : externals C E) (input : pygem_input) (g : glacier C) (tr : traces)
    (w : world E) (e' : E) (sampling df : DataFrame) (col : list cell) :
  stratified_sample ext tr (in_ensemble_no input) (w_ext w) = (inr sampling, e') ->
  df_getitem sampling "massbal" = inr col ->
  process_df input sampling = inr df ->
  let mean := np_mean (List.map cell_value col) in
  exists log : list event,
    export_ensemble ext input g tr w
    = (inr tt,
       {| w_ext := e';
          w_files := <[glacier_str g +:+ ".nc" := df]> (w_files w);
          w_log := w_log w ++ Printed (glacier_str g) mean :: log |})
    /\ (log = [StillOutside (glacier_str g)] \/ log = [])
    /\ (log = [StillOutside (glacier_str g)] <->
        exists m : Q,
          mean = Some m /\ 0.1 < Qabs (observed_massbal g - m)).
Proof.
  intros Hstrat Hcol Hproc mean.
  unfold export_ensemble, bind, call, lift, emit, to_netcdf, ret.
  rewrite Hstrat. cbn [w_ext w_files w_log]. rewrite Hcol. fold mean.
  destruct mean as [m |] eqn:Hmean.
  - destruct (Qlt_bool 0.1 (Qabs (observed_massbal g - m))) eqn:Hout.
    + cbn [w_ext w_files w_log]. rewrite Hproc.
      exists [StillOutside (glacier_str g)].
      split; [now rewrite <- app_assoc |].
      split; [now left |].
      split; [intros _ | reflexivity].
      exists m. split; [reflexivity |]. now apply Qlt_bool_iff.
    + cbn [w_ext w_files w_log]. rewrite Hproc.
      exists []. split; [reflexivity |].
      split; [now right |].
      split; [discriminate |].
      intros (m' & Hm' & Hgt). inversion Hm'; subst m'.
      apply Qlt_bool_iff in Hgt. congruence.
  - cbn [w_ext w_files w_log]. rewrite Hproc.
    exists []. split; [reflexivity |].
    split; [now right |].
    split; [discriminate |].
    intros (m' & Hm' & _). discriminate Hm'.
Qed.

Lemma ensemble_written_even_outside_tolerance_witness :
  exists (w' : world unit) (df : DataFrame),
    export_ensemble Demo.ext Demo.input Demo.glacier_far
      {| tr_tempchange := [0; 0]; tr_precfactor := [0; 0];
         tr_ddfsnow := [0.0041; 0.0041]; tr_massbal := [0.5; 0.5] |}
      Demo.world0 = (inr tt, w')
    /\ w_files w' !! "15.00002.nc"%string = Some df
    /\ In (StillOutside "15.00002") (w_log w').
Proof.
  edestruct (ensemble_written_even_outside_tolerance Demo.ext Demo.input
               Demo.glacier_far
               {| tr_tempchange := [0; 0]; tr_precfactor := [0; 0];
                  tr_ddfsnow := [0.0041; 0.0041]; tr_massbal := [0.5; 0.5] |}
               Demo.world0) as (log & Hrun & _ & Hiff).
  - vm_compute. reflexivity.
  - vm_compute. reflexivity.
  - vm_compute. reflexivity.
  - assert (Hlog : log = [StillOutside (glacier_str Demo.glacier_far)]).
    { apply Hiff. eexists. split; [vm_compute; reflexivity |].
      vm_compute. reflexivity. }
    subst log. eexists _, _. split; [exact Hrun |].
    split; [apply lookup_insert_eq |].
    cbn [w_log]. apply in_or_app. right. right. now left.
Defined.

(** * The sampler run and values that are not finite *)

(** ** The deterministic on finite values *)

Lemma np_sum_finite (l : list Q) :
  Ieee.np_sum (List.map Ieee.Finite l) = Ieee.Finite (Qsum l).
Proof.
  induction l as [| x l IH]; [reflexivity |].
  cbn [List.map Ieee.np_sum fold_right]. fold (Ieee.np_sum (List.map Ieee.Finite l)).
  rewrite IH. reflexivity.
Qed.

Lemma slice_map {A B : Type} (f : A -> B) (l : list A) (i j : nat) :
  slice (List.map f l) i j = List.map f (slice l i j).
Proof. unfold slice. now rewrite skipn_map, firstn_map. Qed.

(** Where the forward model returns finite values and [t2] differs from
    [t1], the deterministic of [Ieee] is the deterministic above. *)
Lemma ieee_massbal_finite {C E : Type} (ext : externals C E)
    (modelparameters : list Q) (g : glacier C)
    (precfactor ddfsnow tempchange : option Q) :
  ~ t2 g - t1 g == 0 ->
  Ieee.massbal
    (fun params ctx =>
       rbind (runmassbalance ext params ctx)
         (fun series => inr (List.map Ieee.Finite series)))
    modelparameters g precfactor ddfsnow tempchange
  = rbind (massbal ext modelparameters g precfactor ddfsnow tempchange)
      (fun v => inr (Ieee.Finite v)).
Proof.
  intros Hd. unfold Ieee.massbal, massbal.
  destruct (substitute modelparameters 2 precfactor) as [e | l1];
    [reflexivity |]. cbn [rbind].
  destruct (substitute l1 4 ddfsnow) as [e | l2]; [reflexivity |]. cbn [rbind].
  destruct (substitute l2 7 tempchange) as [e | l3]; [reflexivity |].
  cbn [rbind].
  destruct (list_getitem l3 2) as [e | p]; [reflexivity |]. cbn [rbind].
  destruct (if Qle_bool 0 p then list_setitem l3 2 (p + 1)
            else list_setitem l3 2 (1 / (1 - p))) as [e | l4];
    [reflexivity |]. cbn [rbind].
  destruct (runmassbalance ext l4 (glacier_ctx g)) as [e | series];
    [reflexivity |]. cbn [rbind].
  rewrite slice_map, np_sum_finite. unfold Ieee.np_div.
  destruct (Qeq_bool (t2 g - t1 g) 0) eqn:Hz; [| reflexivity].
  apply Qeq_bool_iff in Hz. contradiction.
Qed.

(** ** Where the exceptions of the prior assignment come from *)

Section RaisesOnly.
Context {E : Type}.
Variable P : exn -> Prop.





End RaisesOnly.





(** ** Iterations on a forward model that is never finite *)

Section NonFiniteIterations.
Context {E : Type}.
Variable k : Ieee.kernel E.
Variable model : Ieee.mcmc_model.
Variable opts : sample_opts.
Hypothesis never_finite :
  forall p d t : Q,
    Ieee.m_massbal model (Some p) (Some d) (Some t) = inr Ieee.NonFinite.


End NonFiniteIterations.


(** ** What the script does about them *)



